(** * LiveScribe WebSocket transcription server: the per-connection handler

    A shallow embedding of [LiveScribe/PythonServer/server.py]: the
    [Session] object, the float32 decoding of binary frames, the body of
    the [async for message in websocket] loop of [handler], and [_send].

    The recognition engine ([Transcriber.transcribe]) and the JSON reader
    ([json.loads]) are collaborators of the handler; the development is
    parametric in both. *)

From Stdlib Require Import List String Ascii Bool Arith ZArith Lia.
From Stdlib Require Import Strings.Byte.
From Stdlib Require QArith DecimalString DecimalN.
Import ListNotations.

Set Warnings "-register-all,-abstract-large-number".

Local Open Scope string_scope.
Local Open Scope list_scope.

(** ** JSON values, as [json.loads] builds them *)

Module Json.

(** A decoded JSON document: [dict], [list], [str], [int], [bool], [None].
    A [dict] keeps insertion order and has one binding per key. *)
Inductive json : Type :=
| JNull
| JBool (b : bool)
| JInt (z : Z)
| JString (s : string)
| JArray (items : list json)
| JObject (members : list (string * json)).

(** [d.get(k)] on a dict: the bound value, or [None]. *)
Fixpoint dict_get (k : string) (d : list (string * json)) : option json :=
  match d with
  | [] => None
  | (k', v) :: d' => if String.eqb k k' then Some v else dict_get k d'
  end.

(** [d[k] = v]: overwrite in place when the key is bound, append otherwise. *)
Fixpoint dict_set (k : string) (v : json) (d : list (string * json))
  : list (string * json) :=
  match d with
  | [] => [(k, v)]
  | (k', v') :: d' =>
      if String.eqb k k' then (k', v) :: d' else (k', v') :: dict_set k v d'
  end.

(** [x == s] for a Python value [x] that came out of [dict.get] and a
    string literal [s]: true exactly when [x] is the string [s]. *)
Definition py_eq_str (x : option json) (s : string) : bool :=
  match x with
  | Some (JString t) => String.eqb t s
  | _ => false
  end.

(** *** A reader for a subset of JSON

    [json_loads_lite] reads objects, arrays, strings without escapes,
    integers and the three literals, with JSON's whitespace.  It is used
    to run the handler on concrete text frames; the theorems below hold
    for every reader. *)

Definition dquote : ascii := "034"%char.
Definition backslash : ascii := "092"%char.

Definition is_ws (c : ascii) : bool :=
  let n := nat_of_ascii c in
  Nat.eqb n 32 || Nat.eqb n 9 || Nat.eqb n 10 || Nat.eqb n 13.

Fixpoint skip_ws (cs : list ascii) : list ascii :=
  match cs with
  | c :: cs' => if is_ws c then skip_ws cs' else cs
  | [] => []
  end.

(** The body of a string, after its opening quote. *)
Fixpoint scan_string (cs : list ascii) : option (string * list ascii) :=
  match cs with
  | [] => None
  | c :: cs' =>
      if Ascii.eqb c dquote then Some (EmptyString, cs')
      else if Ascii.eqb c backslash then None
      else if Nat.ltb (nat_of_ascii c) 32 then None
      else match scan_string cs' with
           | Some (s, r) => Some (String c s, r)
           | None => None
           end
  end.

Definition digit_val (c : ascii) : option Z :=
  let n := nat_of_ascii c in
  if Nat.leb 48 n && Nat.leb n 57 then Some (Z.of_nat (n - 48)) else None.

Definition is_digit (c : ascii) : bool :=
  match digit_val c with Some _ => true | None => false end.

Fixpoint scan_digits (acc : Z) (cs : list ascii) : Z * list ascii :=
  match cs with
  | c :: cs' =>
      match digit_val c with
      | Some d => scan_digits (10 * acc + d) cs'
      | None => (acc, cs)
      end
  | [] => (acc, [])
  end.

(** An integer: no leading zero, no fraction, no exponent. *)
Definition scan_int (cs : list ascii) : option (Z * list ascii) :=
  let '(neg, ds) :=
    match cs with
    | c :: r => if Ascii.eqb c "-" then (true, r) else (false, cs)
    | [] => (false, cs)
    end in
  match ds with
  | d :: r =>
      match digit_val d with
      | None => None
      | Some v =>
          let '(n, rest) :=
            if Ascii.eqb d "0" then (0%Z, r) else scan_digits v r in
          match rest with
          | c :: _ =>
              if Ascii.eqb c "." || Ascii.eqb c "e" || Ascii.eqb c "E"
                 || is_digit c
              then None
              else Some (if neg then (- n)%Z else n, rest)
          | [] => Some (if neg then (- n)%Z else n, rest)
          end
      end
  | [] => None
  end.

Fixpoint strip_prefix (p cs : list ascii) : option (list ascii) :=
  match p, cs with
  | [], _ => Some cs
  | a :: p', c :: cs' => if Ascii.eqb a c then strip_prefix p' cs' else None
  | _ :: _, [] => None
  end.

Definition scan_literal (cs : list ascii) : option (json * list ascii) :=
  match strip_prefix (list_ascii_of_string "true") cs with
  | Some r => Some (JBool true, r)
  | None =>
  match strip_prefix (list_ascii_of_string "false") cs with
  | Some r => Some (JBool false, r)
  | None =>
  match strip_prefix (list_ascii_of_string "null") cs with
  | Some r => Some (JNull, r)
  | None => None
  end end end.

Fixpoint parse_value (fuel : nat) (cs : list ascii)
  : option (json * list ascii) :=
  match fuel with
  | 0 => None
  | S fuel' =>
      match skip_ws cs with
      | [] => None
      | c :: r =>
          if Ascii.eqb c "{" then
            match skip_ws r with
            | c' :: r' =>
                if Ascii.eqb c' "}" then Some (JObject [], r')
                else parse_members fuel' [] r
            | [] => None
            end
          else if Ascii.eqb c "[" then
            match skip_ws r with
            | c' :: r' =>
                if Ascii.eqb c' "]" then Some (JArray [], r')
                else parse_items fuel' [] r
            | [] => None
            end
          else if Ascii.eqb c dquote then
            match scan_string r with
            | Some (s, r') => Some (JString s, r')
            | None => None
            end
          else if Ascii.eqb c "-" || is_digit c then
            match scan_int (c :: r) with
            | Some (z, r') => Some (JInt z, r')
            | None => None
            end
          else scan_literal (c :: r)
      end
  end

with parse_members (fuel : nat) (acc : list (string * json)) (cs : list ascii)
  : option (json * list ascii) :=
  match fuel with
  | 0 => None
  | S fuel' =>
      match skip_ws cs with
      | c :: r =>
          if Ascii.eqb c dquote then
            match scan_string r with
            | Some (k, r1) =>
                match skip_ws r1 with
                | c1 :: r2 =>
                    if Ascii.eqb c1 ":" then
                      match parse_value fuel' r2 with
                      | Some (v, r3) =>
                          match skip_ws r3 with
                          | c3 :: r4 =>
                              if Ascii.eqb c3 "," then
                                parse_members fuel' (dict_set k v acc) r4
                              else if Ascii.eqb c3 "}" then
                                Some (JObject (dict_set k v acc), r4)
                              else None
                          | [] => None
                          end
                      | None => None
                      end
                    else None
                | [] => None
                end
            | None => None
            end
          else None
      | [] => None
      end
  end

with parse_items (fuel : nat) (acc : list json) (cs : list ascii)
  : option (json * list ascii) :=
  match fuel with
  | 0 => None
  | S fuel' =>
      match parse_value fuel' cs with
      | Some (v, r) =>
          match skip_ws r with
          | c :: r' =>
              if Ascii.eqb c "," then parse_items fuel' (acc ++ [v]) r'
              else if Ascii.eqb c "]" then Some (JArray (acc ++ [v]), r')
              else None
          | [] => None
          end
      | None => None
      end
  end.

(** [None] stands for [json.JSONDecodeError]. *)
Definition json_loads_lite (s : string) : option json :=
  match parse_value (S (String.length s)) (list_ascii_of_string s) with
  | Some (v, r) => match skip_ws r with [] => Some v | _ :: _ => None end
  | None => None
  end.

(** Text frames used in the runs below. *)
Definition quoted (s : string) : string :=
  String dquote s ++ String dquote EmptyString.

(** The text [{"type": t}], as [json.dumps({"type": t})] prints it. *)
Definition type_message (t : string) : string :=
  "{" ++ quoted "type" ++ ": " ++ quoted t ++ "}".

End Json.
Export Json.

(** ** Binary frames: little-endian float32 samples *)

Module Numpy.

(** A float32 sample is carried as its 32-bit pattern. *)
Definition float32 : Type := Z.

Definition byte_val (b : byte) : Z := Z.of_N (Byte.to_N b).

(** The bit pattern of the sample stored little-endian in four bytes. *)
Definition f32_of_le (b0 b1 b2 b3 : byte) : float32 :=
  Z.lor (byte_val b0)
    (Z.lor (Z.shiftl (byte_val b1) 8)
       (Z.lor (Z.shiftl (byte_val b2) 16) (Z.shiftl (byte_val b3) 24))).

(** [np.frombuffer(message, dtype="<f4")]: one sample per four bytes;
    [None] stands for the [ValueError] numpy raises when the buffer size is
    not a multiple of the element size. *)
Fixpoint frombuffer (bs : list byte) : option (list float32) :=
  match bs with
  | [] => Some []
  | b0 :: b1 :: b2 :: b3 :: rest =>
      match frombuffer rest with
      | Some c => Some (f32_of_le b0 b1 b2 b3 :: c)
      | None => None
      end
  | _ => None
  end.

(** [a[-n:]] on a sequence, with Python's slice rules: the last [n]
    elements, the whole sequence when it has at most [n]; [a[-0:]] is
    [a[0:]], the whole sequence. *)
Definition slice_last {A : Type} (n : nat) (a : list A) : list A :=
  if Nat.eqb n 0 then a else skipn (List.length a - n) a.

End Numpy.
Export Numpy.

(** ** Constants of the server *)

(** [SAMPLE_RATE] of [transcriber.py]. *)
Definition SAMPLE_RATE : N := 16000.

(** [int(SAMPLE_RATE * 0.15)]: the double product [16000 * 0.15] rounds to
    exactly [2400.0], so the truncation is 15 hundredths of the rate. *)
Definition OVERLAP_SAMPLES : nat := N.to_nat (N.div (SAMPLE_RATE * 15) 100).

(** ** Session state *)

Record Session : Type := mkSession {
  active : bool;
  overlap : list float32
}.

(** [Session.__init__] *)
Definition Session_init : Session := mkSession false [].

(** [Session.reset] and [Session.stop] assign both attributes; they are
    given below as actions of the handler's monad, which records each
    assignment. *)

(** ** Frames, messages, exceptions, effects *)

(** One inbound websocket message: a [str] or a [bytes]. *)
Inductive message : Type :=
| Text (s : string)
| Binary (b : list byte).

(** Exceptions that can leave the loop body.  [EngineError] is whatever
    the recognition call raised. *)
Inductive exn : Type :=
| AttributeError
| ValueError
| RecursionError
| EngineError (what : string).

(** What [json.loads] does with a text: it returns the decoded value, it
    raises [json.JSONDecodeError], or it raises something else, which is
    not a [JSONDecodeError]: [RecursionError] on deeply nested text, plain
    [ValueError] on an integer of more digits than the interpreter
    converts. *)
Inductive loads_result : Type :=
| Loaded (v : json)
| DecodeError
| LoadsRaised (ex : exn).

(** What the handler does to the outside, in program order. *)
Inductive event : Type :=
| Sent (payload : json)                (* ws.send(json.dumps(payload)) *)
| Transcribe (audio : list float32)    (* transcriber.transcribe(audio) *)
| SetActive (b : bool)                 (* session.active = b *)
| SetOverlap (o : list float32).       (* session.overlap = o *)

(** How one run of the loop body ends: it falls off its end, it executes
    [continue], or an exception leaves it. *)
Inductive outcome (A : Type) : Type :=
| Val (a : A)
| Continue
| Raise (e : exn).
Arguments Val {A} a.
Arguments Continue {A}.
Arguments Raise {A} e.

(** Payloads of the three frames of the protocol. *)
Definition error_frame (msg : string) : json :=
  JObject [("type", JString "error"); ("message", JString msg)].

Definition transcript_frame (text : string) : json :=
  JObject [("type", JString "transcript"); ("text", JString text);
           ("is_final", JBool false)].

Definition ready_frame : json := JObject [("type", JString "ready")].

(** The ["type"] of a frame. *)
Definition frame_type (p : json) : option json :=
  match p with
  | JObject d => dict_get "type" d
  | _ => None
  end.

Definition is_frame (t : string) (p : json) : bool :=
  py_eq_str (frame_type p) t.

(** The frames sent, and the recognition calls made, in a trace. *)
Fixpoint sent (tr : list event) : list json :=
  match tr with
  | [] => []
  | Sent p :: tr' => p :: sent tr'
  | _ :: tr' => sent tr'
  end.

Fixpoint calls (tr : list event) : list (list float32) :=
  match tr with
  | [] => []
  | Transcribe a :: tr' => a :: calls tr'
  | _ :: tr' => calls tr'
  end.

(** [if text:] on a [str]. *)
Definition truthy (text : string) : bool :=
  match text with
  | EmptyString => false
  | String _ _ => true
  end.

(** The buffer handed to the engine:
    [np.concatenate([session.overlap, chunk]) if len(session.overlap) > 0
     else chunk]. *)
Definition stitch (overlap chunk : list float32) : list float32 :=
  if Nat.ltb 0 (List.length overlap) then overlap ++ chunk else chunk.

(** The overlap kept for the next chunk:
    [chunk[-OVERLAP_SAMPLES:] if len(chunk) >= OVERLAP_SAMPLES else chunk]. *)
Definition next_overlap (chunk : list float32) : list float32 :=
  if Nat.leb OVERLAP_SAMPLES (List.length chunk)
  then slice_last OVERLAP_SAMPLES chunk
  else chunk.

Section Server.

(** [json.loads]. *)
Variable json_loads : string -> loads_result.

(** The recognition engine behind [transcriber.transcribe]: it has a state
    of its own, and a call returns a text or raises. *)
Context {engine : Type}.
Variable transcribe : engine -> list float32 -> (string + exn) * engine.

Record world : Type := mkWorld {
  session : Session;
  eng : engine
}.

(** The handler's monad: state, a trace of effects, and early exit. *)
Definition M (A : Type) : Type := world -> outcome A * world * list event.

Definition ret {A : Type} (a : A) : M A := fun w => (Val a, w, []).

Definition bind {A B : Type} (m : M A) (k : A -> M B) : M B :=
  fun w =>
    match m w with
    | (Val a, w1, t1) =>
        match k a w1 with
        | (r, w2, t2) => (r, w2, t1 ++ t2)
        end
    | (Continue, w1, t1) => (Continue, w1, t1)
    | (Raise e, w1, t1) => (Raise e, w1, t1)
    end.

Notation "x <- m ;; k" := (bind m (fun x => k))
  (at level 61, m at next level, right associativity).
Notation "m ;; k" := (bind m (fun _ => k))
  (at level 61, right associativity).

Definition continue {A : Type} : M A := fun w => (Continue, w, []).
Definition raise {A : Type} (e : exn) : M A := fun w => (Raise e, w, []).
Definition get_session : M Session := fun w => (Val (session w), w, []).

Definition set_active (b : bool) : M unit :=
  fun w => (Val tt, mkWorld (mkSession b (overlap (session w))) (eng w),
            [SetActive b]).

Definition set_overlap (o : list float32) : M unit :=
  fun w => (Val tt, mkWorld (mkSession (active (session w)) o) (eng w),
            [SetOverlap o]).

(** [Session.reset] *)
Definition Session_reset : M unit :=
  set_active true ;; set_overlap [].

(** [Session.stop] *)
Definition Session_stop : M unit :=
  set_active false ;; set_overlap [].

(** [_send]: [websockets.exceptions.ConnectionClosed] raised by [ws.send]
    is swallowed, so [_send] never raises. *)
Definition _send (payload : json) : M unit :=
  fun w => (Val tt, w, [Sent payload]).

(** [await loop.run_in_executor(None, transcriber.transcribe, audio)] *)
Definition run_transcribe (audio : list float32) : M string :=
  fun w =>
    match transcribe (eng w) audio with
    | (inl text, e') => (Val text, mkWorld (session w) e', [Transcribe audio])
    | (inr ex, e') => (Raise ex, mkWorld (session w) e', [Transcribe audio])
    end.

(** [cmd.get(k)]: only a dict has [get]. *)
Definition cmd_get (cmd : json) (k : string) : M (option json) :=
  match cmd with
  | JObject d => ret (dict_get k d)
  | _ => raise AttributeError
  end.

(** [np.frombuffer(message, dtype="<f4").astype(np.float32)] *)
Definition np_frombuffer (b : list byte) : M (list float32) :=
  match frombuffer b with
  | Some c => ret c
  | None => raise ValueError
  end.

(** The body of [async for message in websocket]. *)
Definition handler_body (msg : message) : M unit :=
  match msg with
  | Text s =>
      match json_loads s with
      | DecodeError => _send (error_frame "Invalid JSON") ;; continue
      | LoadsRaised ex => raise ex
      | Loaded cmd =>
          t <- cmd_get cmd "type" ;;
          if py_eq_str t "start" then Session_reset
          else
            t' <- cmd_get cmd "type" ;;
            if py_eq_str t' "stop" then Session_stop
            else ret tt
      end
  | Binary b =>
      s <- get_session ;;
      if negb (active s) then continue
      else
        let n_samples := Nat.div (List.length b) 4 in
        if Nat.eqb n_samples 0 then continue
        else
          chunk <- np_frombuffer b ;;
          let audio := stitch (overlap s) chunk in
          set_overlap (next_overlap chunk) ;;
          text <- run_transcribe audio ;;
          if truthy text then _send (transcript_frame text)
          else ret tt
  end.

(** How the handler ends: the message stream was exhausted (the peer
    closed; [ConnectionClosedOK] and [ConnectionClosedError] are caught),
    or an exception left the loop and the handler with it. *)
Inductive status : Type :=
| Returned
| Propagated (e : exn).

(** The loop over the inbound messages, in arrival order. *)
Fixpoint run_loop (msgs : list message) (w : world)
  : status * world * list event :=
  match msgs with
  | [] => (Returned, w, [])
  | m :: rest =>
      match handler_body m w with
      | (Raise e, w1, t1) => (Propagated e, w1, t1)
      | (_, w1, t1) =>
          match run_loop rest w1 with
          | (st, w2, t2) => (st, w2, t1 ++ t2)
          end
      end
  end.

(** [handler]: a fresh [Session], then the loop. *)
Definition handler (msgs : list message) (e : engine)
  : status * world * list event :=
  run_loop msgs (mkWorld Session_init e).

End Server.

(** ** Fixtures for concrete runs *)

(** An engine that plays a script: each call consumes the next reply; once
    the script is over it hears nothing. *)
Definition scripted (script : list (string + exn)) (audio : list float32)
  : (string + exn) * list (string + exn) :=
  match script with
  | r :: rest => (r, rest)
  | [] => (inl EmptyString, [])
  end.

(** The subset reader as a [json.loads]: on the texts it is run on below
    it returns the value [json.loads] returns, or fails as [json.loads]
    does with [json.JSONDecodeError]. *)
Definition loads_lite (s : string) : loads_result :=
  match json_loads_lite s with
  | Some v => Loaded v
  | None => DecodeError
  end.

(** The handler over the subset reader and a scripted engine. *)
Definition demo_body := handler_body loads_lite scripted.
Definition demo_handler := handler loads_lite scripted.

Definition start_msg : message := Text (type_message "start").
Definition stop_msg : message := Text (type_message "stop").
Definition ping_msg : message := Text (type_message "ping").

(** The first [n] samples of the ramp, decoded. *)
Definition ramp (i n : nat) : list float32 :=
  map (fun k => Z.of_nat (Nat.modulo k 256)) (seq i n).

(** [n] samples' worth of bytes: sample [i] is the bytes [i, 0, 0, 0]. *)
Fixpoint ramp_bytes (i n : nat) : list byte :=
  match n with
  | 0 => []
  | S n' =>
      match Byte.of_nat (Nat.modulo i 256) with
      | Some b => b :: x00 :: x00 :: x00 :: ramp_bytes (S i) n'
      | None => x00 :: x00 :: x00 :: x00 :: ramp_bytes (S i) n'
      end
  end.

(** The trace of a chunk that reaches the engine, up to the reply. *)
Definition chunk_prefix (o chunk : list float32) : list event :=
  [SetOverlap (next_overlap chunk); Transcribe (stitch o chunk)].

(** The buffers a run of chunks yields, starting from overlap [o]. *)
Fixpoint stitched (o : list float32) (chunks : list (list float32))
  : list (list float32) :=
  match chunks with
  | [] => []
  | c :: cs => stitch o c :: stitched (next_overlap c) cs
  end.

(** An engine none of whose calls raises. *)
Definition never_raises {engine : Type}
    (transcribe : engine -> list float32 -> (string + exn) * engine) : Prop :=
  forall (e : engine) (a : list float32),
    exists text e', transcribe e a = (inl text, e').

(** A binary message that decodes to a chunk of at least one sample. *)
Definition decodes_to (b : list byte) (chunk : list float32) : Prop :=
  frombuffer b = Some chunk /\ chunk <> [].

(** What an effect of the handler may be: a frame is the error frame for
    unreadable JSON or a transcript with a non-empty text; an overlap
    that is assigned has at most [OVERLAP_SAMPLES] samples. *)
Definition event_ok (ev : event) : Prop :=
  match ev with
  | Sent p =>
      p = error_frame "Invalid JSON"
      \/ exists text, text <> EmptyString /\ p = transcript_frame text
  | SetOverlap o => List.length o <= OVERLAP_SAMPLES
  | Transcribe _ => True
  | SetActive _ => True
  end.

(** ** The claims in the specification's words, for comparison *)

(** C3 as stated, for the run [r] of the loop body on one text message
    from world [w0]: exactly one frame is sent and it is an [error] frame,
    the session is as before, and no exception ends the loop. *)
Definition answered_by_one_error {engine : Type} (w0 : @world engine)
    (r : outcome unit * @world engine * list event) : Prop :=
  (exists p, sent (snd r) = [p] /\ is_frame "error" p = true)
  /\ session (snd (fst r)) = session w0
  /\ (forall ex, fst (fst r) <> Raise ex).

(** C1 as stated, for the run [r] of the loop body on one chunk from world
    [w0] when the recognition call raises: an [error] frame is sent, the
    session is as before, and no exception ends the loop. *)
Definition engine_error_reported {engine : Type} (w0 : @world engine)
    (r : outcome unit * @world engine * list event) : Prop :=
  (exists p, In p (sent (snd r)) /\ is_frame "error" p = true)
  /\ session (snd (fst r)) = session w0
  /\ (forall ex, fst (fst r) <> Raise ex).

(** The last [n] samples of a chunk, or all of them if it has fewer. *)
Definition last_samples (n : nat) (chunk : list float32) : list float32 :=
  skipn (List.length chunk - n) chunk.

(** The overlap in front of chunk [k] (counted from 0) of a session:
    nothing for the first, the tail of the chunk before for the others. *)
Definition overlap_before (chunks : list (list float32)) (k : nat)
  : list float32 :=
  match k with
  | 0 => []
  | S j => last_samples OVERLAP_SAMPLES (nth j chunks [])
  end.

(** ** Shapes of one step of the loop

    Every run of the loop body has one of these shapes, whatever the JSON
    reader and the engine are. *)

Inductive step_shape {engine : Type}
    (transcribe : engine -> list float32 -> (string + exn) * engine)
  : message -> @world engine -> outcome unit * @world engine * list event
    -> Prop :=
| shape_bad_json (s : string) (w : world) :
    step_shape transcribe (Text s) w
      (Continue, w, [Sent (error_frame "Invalid JSON")])
| shape_not_dict (s : string) (w : world) :
    step_shape transcribe (Text s) w (Raise AttributeError, w, [])
| shape_loads_raised (s : string) (w : world) (ex : exn) :
    step_shape transcribe (Text s) w (Raise ex, w, [])
| shape_start (s : string) (w : world) :
    step_shape transcribe (Text s) w
      (Val tt, mkWorld (mkSession true []) (eng w),
       [SetActive true; SetOverlap []])
| shape_stop (s : string) (w : world) :
    step_shape transcribe (Text s) w
      (Val tt, mkWorld (mkSession false []) (eng w),
       [SetActive false; SetOverlap []])
| shape_other (s : string) (w : world) :
    step_shape transcribe (Text s) w (Val tt, w, [])
| shape_skip (b : list byte) (w : world) :
    active (session w) = false \/ List.length b < 4 ->
    step_shape transcribe (Binary b) w (Continue, w, [])
| shape_ragged (b : list byte) (w : world) :
    active (session w) = true ->
    4 <= List.length b -> Nat.modulo (List.length b) 4 <> 0 ->
    step_shape transcribe (Binary b) w (Raise ValueError, w, [])
| shape_heard (b : list byte) (o chunk : list float32) (e e' : engine)
              (text : string) :
    frombuffer b = Some chunk -> chunk <> [] ->
    transcribe e (stitch o chunk) = (inl text, e') ->
    step_shape transcribe (Binary b) (mkWorld (mkSession true o) e)
      (Val tt, mkWorld (mkSession true (next_overlap chunk)) e',
       chunk_prefix o chunk
       ++ (if truthy text then [Sent (transcript_frame text)] else []))
| shape_failed (b : list byte) (o chunk : list float32) (e e' : engine)
               (ex : exn) :
    frombuffer b = Some chunk -> chunk <> [] ->
    transcribe e (stitch o chunk) = (inr ex, e') ->
    step_shape transcribe (Binary b) (mkWorld (mkSession true o) e)
      (Raise ex, mkWorld (mkSession true (next_overlap chunk)) e',
       chunk_prefix o chunk).

(** The binary messages among the inbound ones. *)
Fixpoint binary_count (msgs : list message) : nat :=
  match msgs with
  | [] => 0
  | Binary _ :: rest => S (binary_count rest)
  | Text _ :: rest => binary_count rest
  end.

(** An idle session carries no overlap. *)
Definition idle_is_empty (s : Session) : Prop :=
  active s = false -> overlap s = [].

(** ** [main]: binding the listener, and the parent watchdog *)

Module Startup.

(** What [websockets.serve(_handler, HOST, PORT)] does on one attempt: it
    binds, or raises [OSError] with an [errno]. *)
Inductive bind_result : Type :=
| Bound
| OSError (errno : Z).

Inductive startup_event : Type :=
| PrintLoading                 (* "[server] Loading Whisper model ..." *)
| TryServe (attempt : nat)     (* async with websockets.serve(...) *)
| PrintListening               (* "[server] Listening on ws://..." *)
| PrintREADY                   (* "READY" *)
| PrintBusy (attempt : nat)    (* "[server] Port ... busy, retrying ..." *)
| Sleep (seconds : nat).       (* await asyncio.sleep(2) *)

(** How [main] ends: inside [await asyncio.Future()], which never
    completes; by an [OSError] it raises again; or by falling off the end
    of the [for]. *)
Inductive startup_status : Type :=
| Serving
| Raised (errno : Z)
| FellThrough.

(** The body of [for attempt in range(1, 7)], over the attempts left. *)
Fixpoint retry_bind (serve : nat -> bind_result) (attempts : list nat)
  : startup_status * list startup_event :=
  match attempts with
  | [] => (FellThrough, [])
  | attempt :: rest =>
      match serve attempt with
      | Bound => (Serving, [TryServe attempt; PrintListening; PrintREADY])
      | OSError errno =>
          if Z.eqb errno 48 && Nat.ltb attempt 6 then
            match retry_bind serve rest with
            | (st, tr) =>
                (st, [TryServe attempt; PrintBusy attempt; Sleep 2] ++ tr)
            end
          else (Raised errno, [TryServe attempt])
      end
  end.

(** [main], once the [Transcriber] is constructed; [serve] tells what each
    attempt to bind meets. *)
Definition main (serve : nat -> bind_result)
  : startup_status * list startup_event :=
  match retry_bind serve (seq 1 6) with
  | (st, tr) => (st, PrintLoading :: tr)
  end.

(** The events of one attempt that found the port busy. *)
Definition busy_round (attempt : nat) : list startup_event :=
  [TryServe attempt; PrintBusy attempt; Sleep 2].

Definition is_try (ev : startup_event) : bool :=
  match ev with TryServe _ => true | _ => false end.

Definition is_sleep (ev : startup_event) : bool :=
  match ev with Sleep _ => true | _ => false end.

Definition is_ready (ev : startup_event) : bool :=
  match ev with PrintREADY => true | _ => false end.

(** What [os.kill(ppid, 0)] meets on one poll. *)
Inductive probe : Type :=
| Alive
| ProcessLookupError
| PermissionError
| OtherError.

Inductive watchdog_event : Type :=
| WdSleep (seconds : nat)      (* time.sleep(2) *)
| Probe                        (* os.kill(ppid, 0) *)
| PrintGone                    (* "[server] Parent process gone ..." *)
| SendSIGTERM.                 (* os.kill(os.getpid(), signal.SIGTERM) *)

(** How far the watchdog got: still in its [while True] when the polls
    given are used up, returned after signalling, or ended by an exception
    it does not catch. *)
Inductive watchdog_status : Type :=
| Watching
| Signalled
| Died.

(** [_parent_watchdog], over what its successive polls meet. *)
Fixpoint _parent_watchdog (polls : list probe)
  : watchdog_status * list watchdog_event :=
  match polls with
  | [] => (Watching, [])
  | p :: rest =>
      match p with
      | Alive =>
          match _parent_watchdog rest with
          | (st, tr) => (st, [WdSleep 2; Probe] ++ tr)
          end
      | ProcessLookupError | PermissionError =>
          (Signalled, [WdSleep 2; Probe; PrintGone; SendSIGTERM])
      | OtherError => (Died, [WdSleep 2; Probe])
      end
  end.


Definition is_sigterm (ev : watchdog_event) : bool :=
  match ev with SendSIGTERM => true | _ => false end.

Definition is_wd_sleep (ev : watchdog_event) : bool :=
  match ev with WdSleep _ => true | _ => false end.

Definition is_probe (ev : watchdog_event) : bool :=
  match ev with Probe => true | _ => false end.

End Startup.

(** ** [transcriber.py]: the backends *)

Module Backend.

(** [d.get(k)] on a dict of strings. *)
Fixpoint str_get (k : string) (d : list (string * string)) : option string :=
  match d with
  | [] => None
  | (k', v) :: d' => if String.eqb k k' then Some v else str_get k d'
  end.

Definition _MLX_MODEL_MAP : list (string * string) :=
  [("tiny", "mlx-community/whisper-tiny-mlx");
   ("base", "mlx-community/whisper-base-mlx");
   ("small", "mlx-community/whisper-small-mlx");
   ("medium", "mlx-community/whisper-medium-mlx");
   ("large", "mlx-community/whisper-large-v3-mlx")].

(** [_MLXBackend.__init__]:
    [_MLX_MODEL_MAP.get(model_size, _MLX_MODEL_MAP["small"])]; [None] is the
    [KeyError] of the subscript. *)
Definition mlx_model_path (model_size : string) : option string :=
  match str_get "small" _MLX_MODEL_MAP with
  | Some fallback =>
      Some (match str_get model_size _MLX_MODEL_MAP with
            | Some path => path
            | None => fallback
            end)
  | None => None
  end.

(** [_FasterWhisperBackend.transcribe]:
    [" ".join(s.text.strip() for s in segments)], over the texts of the
    segments the model yields; [strip] is [str.strip]. *)
Definition faster_whisper_text (strip : string -> string)
    (segment_texts : list string) : string :=
  String.concat " " (map strip segment_texts).

(** The characters of the stripped texts, all together. *)
Fixpoint total_length (strip : string -> string) (texts : list string)
  : nat :=
  match texts with
  | [] => 0
  | t :: rest => String.length (strip t) + total_length strip rest
  end.

End Backend.

(** ** [reel_transcriber.py]: helpers *)

Module Reel.

(** [int(seconds)] for a finite float, which is a rational: truncation
    toward zero. *)
Definition py_int (seconds : QArith_base.Q) : Z :=
  Z.quot (QArith_base.Qnum seconds) (Z.pos (QArith_base.Qden seconds)).

(** The decimal digits of a natural number. *)
Definition digits (n : N) : string :=
  DecimalString.NilZero.string_of_uint (N.to_uint n).

(** [f"{z:02d}"]: zero-padded to two characters, the sign counted. *)
Definition fmt_02d (z : Z) : string :=
  if Z.ltb z 0 then "-" ++ digits (Z.to_N (- z))
  else
    let d := digits (Z.to_N z) in
    if Nat.ltb (String.length d) 2 then "0" ++ d else d.

(** [format_time]: [m, s = divmod(int(seconds), 60)], then
    [f"[{m:02d}:{s:02d}]"]. *)
Definition format_time (seconds : QArith_base.Q) : string :=
  let n := py_int seconds in
  let m := Z.div n 60 in
  let s := Z.modulo n 60 in
  "[" ++ fmt_02d m ++ ":" ++ fmt_02d s ++ "]".

(** [os.environ], as the variables set and their values. *)
Definition environ : Type := list (string * string).

Fixpoint env_get (k : string) (env : environ) : option string :=
  match env with
  | [] => None
  | (k', v) :: env' => if String.eqb k k' then Some v else env_get k env'
  end.

(** [os.environ[k] = v] *)
Fixpoint env_set (k v : string) (env : environ) : environ :=
  match env with
  | [] => [(k, v)]
  | (k', v') :: env' =>
      if String.eqb k k' then (k', v) :: env'
      else (k', v') :: env_set k v env'
  end.

(** [os.environ.setdefault(k, v)] *)
Definition env_setdefault (k v : string) (env : environ) : environ :=
  match env_get k env with
  | Some _ => env
  | None => env_set k v env
  end.

(** [set_hf_token]; the token is [None] or a [str]. *)
Definition set_hf_token (token : option string) (env : environ) : environ :=
  let env1 :=
    match token with
    | Some t => if truthy t then env_set "HF_TOKEN" t env else env
    | None => env
    end in
  env_setdefault "HF_HUB_DISABLE_IMPLICIT_TOKEN" "1" env1.

Definition _MLX_MODEL_MAP : list (string * string) :=
  [("tiny", "mlx-community/whisper-tiny-mlx");
   ("base", "mlx-community/whisper-base-mlx");
   ("small", "mlx-community/whisper-small-mlx");
   ("medium", "mlx-community/whisper-medium-mlx");
   ("large-v2", "mlx-community/whisper-large-v2-mlx");
   ("large-v3", "mlx-community/whisper-large-v3-mlx")].

(** The [choices] of [--model] in [parse_args]. *)
Definition model_choices : list string :=
  ["tiny"; "base"; "small"; "medium"; "large-v2"; "large-v3"].

(** [_run_mlx_whisper]:
    [_MLX_MODEL_MAP.get(model_size, _MLX_MODEL_MAP["large-v3"])]. *)
Definition mlx_model (model_size : string) : option string :=
  match Backend.str_get "large-v3" _MLX_MODEL_MAP with
  | Some fallback =>
      Some (match Backend.str_get model_size _MLX_MODEL_MAP with
            | Some path => path
            | None => fallback
            end)
  | None => None
  end.

End Reel.

(** ** Reading a time stamp back *)

Module ReelCheck.

(** Two digits that read as [z]. *)
Definition two_digits_of (z : Z) (s : string) : bool :=
  match s with
  | String d1 (String d2 EmptyString) =>
      match digit_val d1, digit_val d2 with
      | Some a, Some b => Z.eqb (10 * a + b) z
      | _, _ => false
      end
  | _ => false
  end.

(** The number a string of digits stands for. *)
Definition read_digits (s : string) : option N :=
  option_map N.of_uint (DecimalString.NilEmpty.uint_of_string s).

End ReelCheck.

(** ** Decoding and slicing *)

Lemma OVERLAP_SAMPLES_value : OVERLAP_SAMPLES = 2400.
Proof. vm_compute. reflexivity. Qed.

Lemma OVERLAP_SAMPLES_nonzero : Nat.eqb OVERLAP_SAMPLES 0 = false.
Proof. rewrite OVERLAP_SAMPLES_value. reflexivity. Qed.

Lemma frombuffer_length (c : list float32) :
  forall b, frombuffer b = Some c -> List.length b = 4 * List.length c.
Proof.
  induction c as [|x c IH]; intros b H.
  - destruct b as [|b0 [|b1 [|b2 [|b3 rest]]]]; simpl in H;
      try discriminate; try reflexivity.
    destruct (frombuffer rest); discriminate.
  - destruct b as [|b0 [|b1 [|b2 [|b3 rest]]]]; simpl in H; try discriminate.
    destruct (frombuffer rest) as [c'|] eqn:E; try discriminate.
    injection H as _ Hc. subst c'.
    specialize (IH rest E). simpl. lia.
Qed.

Lemma frombuffer_aligned (n : nat) :
  forall b, List.length b = 4 * n ->
            exists c, frombuffer b = Some c /\ List.length c = n.
Proof.
  induction n as [|n IH]; intros b H.
  - destruct b; [|simpl in H; lia]. exists []. split; reflexivity.
  - destruct b as [|b0 [|b1 [|b2 [|b3 rest]]]]; simpl in H; try lia.
    destruct (IH rest) as [c [Hc Hl]]; [lia|].
    exists (f32_of_le b0 b1 b2 b3 :: c). simpl. rewrite Hc, Hl.
    split; reflexivity.
Qed.

Lemma frombuffer_ragged (b : list byte) :
  Nat.modulo (List.length b) 4 <> 0 -> frombuffer b = None.
Proof.
  intros H. destruct (frombuffer b) as [c|] eqn:E; [|reflexivity].
  apply frombuffer_length in E. exfalso. apply H.
  rewrite E, Nat.mul_comm. apply Nat.Div0.mod_mul.
Qed.

Lemma next_overlap_last_samples (chunk : list float32) :
  next_overlap chunk = last_samples OVERLAP_SAMPLES chunk.
Proof.
  unfold next_overlap, last_samples, slice_last.
  rewrite OVERLAP_SAMPLES_nonzero.
  destruct (Nat.leb_spec OVERLAP_SAMPLES (List.length chunk)) as [H|H].
  - reflexivity.
  - replace (List.length chunk - OVERLAP_SAMPLES) with 0 by lia. reflexivity.
Qed.

Lemma next_overlap_length (chunk : list float32) :
  List.length (next_overlap chunk)
  = Nat.min OVERLAP_SAMPLES (List.length chunk).
Proof.
  rewrite next_overlap_last_samples. unfold last_samples.
  rewrite length_skipn. lia.
Qed.

Lemma sent_app (t1 t2 : list event) : sent (t1 ++ t2) = sent t1 ++ sent t2.
Proof.
  induction t1 as [|ev t1 IH]; [reflexivity|].
  destruct ev; simpl; rewrite IH; reflexivity.
Qed.

Lemma calls_app (t1 t2 : list event) : calls (t1 ++ t2) = calls t1 ++ calls t2.
Proof.
  induction t1 as [|ev t1 IH]; [reflexivity|].
  destruct ev; simpl; rewrite IH; reflexivity.
Qed.

Lemma stitch_app (o chunk : list float32) : stitch o chunk = o ++ chunk.
Proof. unfold stitch. destruct o; reflexivity. Qed.

Lemma stitched_length (chunks : list (list float32)) :
  forall o, List.length (stitched o chunks) = List.length chunks.
Proof.
  induction chunks as [|c cs IH]; intros o; [reflexivity|].
  simpl. rewrite IH. reflexivity.
Qed.

(** The [k]-th buffer: the overlap in front of it, then the chunk. *)
Lemma stitched_nth (chunks : list (list float32)) :
  forall o k,
    k < List.length chunks ->
    nth k (stitched o chunks) []
    = match k with
      | 0 => o
      | S j => last_samples OVERLAP_SAMPLES (nth j chunks [])
      end ++ nth k chunks [].
Proof.
  induction chunks as [|c cs IH]; intros o k Hk; [simpl in Hk; lia|].
  destruct k as [|k]; [apply stitch_app|].
  cbn [stitched nth]. rewrite IH by (simpl in Hk; lia).
  destruct k as [|k]; [|reflexivity].
  rewrite next_overlap_last_samples. reflexivity.
Qed.

(** ** The loop body, case by case *)

Section Facts.

Variable json_loads : string -> loads_result.
Context {engine : Type}.
Variable transcribe : engine -> list float32 -> (string + exn) * engine.

Local Notation "'body'" := (handler_body json_loads transcribe).
Local Notation "'loop'" := (run_loop json_loads transcribe).

(** A binary frame of at least one whole sample, in an active session. *)
Lemma body_chunk (b : list byte) (o chunk : list float32) (e : engine) :
  frombuffer b = Some chunk -> chunk <> [] ->
  body (Binary b) (mkWorld (mkSession true o) e)
  = match transcribe e (stitch o chunk) with
    | (inl text, e') =>
        (Val tt, mkWorld (mkSession true (next_overlap chunk)) e',
         chunk_prefix o chunk
         ++ (if truthy text then [Sent (transcript_frame text)] else []))
    | (inr ex, e') =>
        (Raise ex, mkWorld (mkSession true (next_overlap chunk)) e',
         chunk_prefix o chunk)
    end.
Proof.
  intros Hb Hne.
  assert (Hn : Nat.eqb (Nat.div (List.length b) 4) 0 = false).
  { apply frombuffer_length in Hb. rewrite Hb, Nat.mul_comm, Nat.div_mul by lia.
    destruct chunk; [congruence|reflexivity]. }
  unfold handler_body, bind, get_session, np_frombuffer, set_overlap,
    run_transcribe, chunk_prefix; cbn [session active overlap eng negb].
  rewrite Hn, Hb. unfold ret; cbn [session active overlap eng].
  destruct (transcribe e (stitch o chunk)) as [[text|ex] e']; [|reflexivity].
  unfold _send. destruct (truthy text); reflexivity.
Qed.

(** A step of the loop that does not raise hands over to the rest. *)
Lemma loop_cons_continue (m : message) (rest : list message) (w w1 : world)
      (t1 : list event) :
  body m w = (Continue, w1, t1) ->
  loop (m :: rest) w
  = (fst (fst (loop rest w1)), snd (fst (loop rest w1)),
     t1 ++ snd (loop rest w1)).
Proof.
  intros H. simpl. rewrite H.
  destruct (loop rest w1) as [[st w2] t2]. reflexivity.
Qed.

Lemma loop_cons_val (m : message) (rest : list message) (w w1 : world)
      (t1 : list event) :
  body m w = (Val tt, w1, t1) ->
  loop (m :: rest) w
  = (fst (fst (loop rest w1)), snd (fst (loop rest w1)),
     t1 ++ snd (loop rest w1)).
Proof.
  intros H. simpl. rewrite H.
  destruct (loop rest w1) as [[st w2] t2]. reflexivity.
Qed.

Lemma loop_cons_raise (m : message) (rest : list message) (w w1 : world)
      (t1 : list event) (ex : exn) :
  body m w = (Raise ex, w1, t1) ->
  loop (m :: rest) w = (Propagated ex, w1, t1).
Proof. intros H. simpl. rewrite H. reflexivity. Qed.

(** ** Audio outside a session, and frames too short for a sample *)

(** C8. A binary message received while the session is idle is dropped:
    the body executes [continue] with an empty trace (no recognition
    call, no frame of any kind, no assignment), the session and the
    engine are as before, and the loop goes on with the next message. *)
Theorem idle_audio_is_discarded
        (b : list byte) (o : list float32) (e : engine) :
  let w := mkWorld (mkSession false o) e in
  body (Binary b) w = (Continue, w, [])
  /\ forall rest, loop (Binary b :: rest) w = loop rest w.
Proof.
  intros w.
  assert (H : body (Binary b) w = (Continue, w, [])) by reflexivity.
  split; [exact H|]. intros rest.
  rewrite (loop_cons_continue _ rest _ _ _ H).
  destruct (loop rest w) as [[st w2] t2]. reflexivity.
Qed.

(** C9. In an active session a binary message of fewer than 4 bytes
    (the empty one included) decodes to zero samples and is a silent
    no-op: [continue] with an empty trace, so no recognition call, no
    frame, and the overlap (the whole session) as before. *)
Theorem short_frame_is_noop
        (b : list byte) (o : list float32) (e : engine) :
  List.length b < 4 ->
  let w := mkWorld (mkSession true o) e in
  Nat.div (List.length b) 4 = 0
  /\ body (Binary b) w = (Continue, w, [])
  /\ forall rest, loop (Binary b :: rest) w = loop rest w.
Proof.
  intros Hlen w.
  assert (Hn : Nat.div (List.length b) 4 = 0) by (apply Nat.div_small; lia).
  assert (H : body (Binary b) w = (Continue, w, [])).
  { unfold handler_body, bind, get_session, w; cbn [session active negb].
    rewrite Hn. reflexivity. }
  repeat split; [exact Hn|exact H|]. intros rest.
  rewrite (loop_cons_continue _ rest _ _ _ H).
  destruct (loop rest w) as [[st w2] t2]. reflexivity.
Qed.

(** ** Chunks that reach the engine *)

(** C7. For a chunk that is processed (active session, at least one
    decoded sample) exactly one recognition call is made, on the stitched
    buffer, and a [transcript] frame is sent if and only if that call
    returns a non-empty text: then it is the one frame sent and carries
    the text; an empty text, like a raised exception, sends no frame. *)
Theorem transcript_iff_text_nonempty
        (b : list byte) (o chunk : list float32) (e : engine) :
  frombuffer b = Some chunk -> chunk <> [] ->
  let tr := snd (body (Binary b) (mkWorld (mkSession true o) e)) in
  let reply := fst (transcribe e (stitch o chunk)) in
  calls tr = [stitch o chunk]
  /\ ((exists p, In p (sent tr) /\ is_frame "transcript" p = true)
      <-> (exists text, reply = inl text /\ text <> EmptyString))
  /\ (forall text, reply = inl text -> text <> EmptyString ->
                   sent tr = [transcript_frame text])
  /\ (reply = inl EmptyString -> sent tr = []).
Proof.
  intros Hb Hne tr reply. subst tr reply.
  rewrite (body_chunk b o chunk e Hb Hne).
  destruct (transcribe e (stitch o chunk)) as [[text|ex] e'];
    cbn [fst snd]; unfold chunk_prefix.
  - destruct text as [|c text]; cbn [truthy app sent calls].
    + repeat split.
      * intros [p [[] _]].
      * intros [text [H1 H2]]. injection H1 as <-. congruence.
      * intros text H1 H2. injection H1 as <-. congruence.
    + repeat split.
      * intros _. exists (String c text). split; [reflexivity|discriminate].
      * intros _. exists (transcript_frame (String c text)).
        split; [left; reflexivity|reflexivity].
      * intros t H1 _. injection H1 as <-. reflexivity.
      * discriminate.
  - cbn [sent calls]. repeat split.
    + intros [p [[] _]].
    + intros [text [H1 _]]. discriminate.
    + intros text H1. discriminate.
Qed.

(** C10. For a chunk of at least one sample in an active session the
    handler first assigns the chunk's tail to the overlap and only then
    calls the engine: the trace starts with that assignment followed by
    the call, whatever comes after is frames, and the session holds the
    tail afterwards whatever the engine does, in particular when it
    returns the empty text and when it raises.  The tail is the last
    [OVERLAP_SAMPLES] samples, the whole chunk if it is shorter. *)
Theorem overlap_advances_before_call
        (b : list byte) (o chunk : list float32) (e : engine) :
  frombuffer b = Some chunk -> chunk <> [] ->
  let r := body (Binary b) (mkWorld (mkSession true o) e) in
  let reply := fst (transcribe e (stitch o chunk)) in
  next_overlap chunk = last_samples OVERLAP_SAMPLES chunk
  /\ (exists frames,
        snd r = SetOverlap (next_overlap chunk)
                :: Transcribe (stitch o chunk) :: map Sent frames)
  /\ session (snd (fst r)) = mkSession true (next_overlap chunk)
  /\ (reply = inl EmptyString -> fst (fst r) = Val tt /\ sent (snd r) = [])
  /\ (forall ex, reply = inr ex -> fst (fst r) = Raise ex).
Proof.
  intros Hb Hne r reply. subst r reply.
  split; [apply next_overlap_last_samples|].
  rewrite (body_chunk b o chunk e Hb Hne).
  destruct (transcribe e (stitch o chunk)) as [[text|ex] e'];
    cbn [fst snd session]; unfold chunk_prefix.
  - split; [|split; [reflexivity|split]].
    + destruct (truthy text).
      * exists [transcript_frame text]. reflexivity.
      * exists []. reflexivity.
    + intros H. injection H as Ht. subst text. split; reflexivity.
    + intros ex H. discriminate.
  - split; [|split; [reflexivity|split]].
    + exists []. reflexivity.
    + discriminate.
    + intros ex' H. injection H as Hex. subst ex'. reflexivity.
Qed.

(** ** Effects and the overlap bound along a whole connection *)

Lemma next_overlap_bounded (chunk : list float32) :
  List.length (next_overlap chunk) <= OVERLAP_SAMPLES.
Proof. rewrite next_overlap_length. apply Nat.le_min_l. Qed.

(** One message: every effect is of the expected kind, and the bound on
    the overlap is kept. *)
Lemma body_effects (m : message) (w : world) :
  Forall event_ok (snd (body m w))
  /\ (List.length (overlap (session w)) <= OVERLAP_SAMPLES ->
      List.length (overlap (session (snd (fst (body m w)))))
      <= OVERLAP_SAMPLES).
Proof.
  destruct w as [[a o] e]. destruct m as [s|b].
  - unfold handler_body. destruct (json_loads s) as [cmd| |ex].
    + destruct cmd as [| | | | |d];
        try (split; [constructor|intros H; exact H]).
      unfold bind, cmd_get, ret, Session_reset, Session_stop, bind,
        set_active, set_overlap.
      destruct (py_eq_str (dict_get "type" d) "start").
      * cbn. split; [|intros _; apply Nat.le_0_l].
        repeat constructor.
      * destruct (py_eq_str (dict_get "type" d) "stop").
        -- cbn. split; [|intros _; apply Nat.le_0_l].
           repeat constructor.
        -- cbn. split; [constructor|intros H; exact H].
    + cbn. split; [|intros H; exact H].
      constructor; [left; reflexivity|constructor].
    + cbn. split; [constructor|intros H; exact H].
  - destruct a.
    + destruct (Nat.eqb (Nat.div (List.length b) 4) 0) eqn:Hn.
      * unfold handler_body, bind, get_session; cbn [session active negb].
        rewrite Hn. cbn. split; [constructor|intros H; exact H].
      * destruct (frombuffer b) as [chunk|] eqn:Hb.
        -- assert (Hne : chunk <> []).
           { intros ->. apply frombuffer_length in Hb.
             rewrite Hb in Hn. discriminate. }
           rewrite (body_chunk b o chunk e Hb Hne).
           destruct (transcribe e (stitch o chunk)) as [[text|ex] e'];
             cbn [fst snd session overlap]; unfold chunk_prefix.
           ++ split; [|intros _; apply next_overlap_bounded].
              constructor; [apply next_overlap_bounded|].
              constructor; [exact I|].
              destruct text as [|c text]; cbn [truthy app].
              ** constructor.
              ** constructor; [|constructor].
                 right. exists (String c text).
                 split; [discriminate|reflexivity].
           ++ split; [|intros _; apply next_overlap_bounded].
              constructor; [apply next_overlap_bounded|].
              constructor; [exact I|constructor].
        -- unfold handler_body, bind, get_session, np_frombuffer;
             cbn [session active negb].
           rewrite Hn, Hb. cbn.
           split; [constructor|intros H; exact H].
    + cbn. split; [constructor|intros H; exact H].
Qed.

Lemma loop_effects (msgs : list message) :
  forall w : world,
    Forall event_ok (snd (loop msgs w))
    /\ (List.length (overlap (session w)) <= OVERLAP_SAMPLES ->
        List.length (overlap (session (snd (fst (loop msgs w)))))
        <= OVERLAP_SAMPLES).
Proof.
  induction msgs as [|m rest IH]; intros w.
  - cbn. split; [constructor|intros H; exact H].
  - destruct (body_effects m w) as [Hev Hinv].
    cbn [run_loop]. destruct (body m w) as [[r w1] t1].
    cbn [fst snd] in Hev, Hinv.
    destruct (IH w1) as [Hev' Hinv'].
    destruct (loop rest w1) as [[st w2] t2]. cbn [fst snd] in Hev', Hinv'.
    destruct r as [[]| |ex]; cbn [fst snd];
      try (split; [apply Forall_app; split; assumption
                  |intros H; apply Hinv', Hinv, H]).
    split; assumption.
Qed.

(** C6. On every connection, after any sequence of inbound messages, the
    session's overlap has at most [OVERLAP_SAMPLES] samples; and so has
    every value ever assigned to it on the way, so the bound holds in
    every state the session passes through, from its creation on. *)
Theorem overlap_never_exceeds_bound (msgs : list message) (e : engine) :
  let r := handler json_loads transcribe msgs e in
  0 <= List.length (overlap (session (snd (fst r)))) <= OVERLAP_SAMPLES
  /\ List.length (overlap Session_init) <= OVERLAP_SAMPLES
  /\ forall o, In (SetOverlap o) (snd r) ->
               0 <= List.length o <= OVERLAP_SAMPLES.
Proof.
  intros r. subst r. unfold handler.
  destruct (loop_effects msgs (mkWorld Session_init e)) as [Hev Hinv].
  split; [split; [apply Nat.le_0_l|apply Hinv, Nat.le_0_l]|].
  split; [apply Nat.le_0_l|].
  intros o Hin. split; [apply Nat.le_0_l|].
  rewrite Forall_forall in Hev. apply (Hev _ Hin).
Qed.

(** C4. Whatever a connection receives, no frame the handler sends is a
    [ready] frame: each frame sent is the error frame for unreadable JSON
    or a transcript frame; a connection that has sent nothing yet has been
    sent nothing. *)
Theorem ready_frame_is_never_sent (msgs : list message) (e : engine) :
  let tr := snd (handler json_loads transcribe msgs e) in
  Forall (fun p => is_frame "ready" p = false
                   /\ (is_frame "error" p = true
                       \/ is_frame "transcript" p = true)) (sent tr)
  /\ ~ In ready_frame (sent tr)
  /\ sent (snd (handler json_loads transcribe [] e)) = [].
Proof.
  intros tr. subst tr. unfold handler.
  destruct (loop_effects msgs (mkWorld Session_init e)) as [Hev _].
  set (tr := snd (loop msgs (mkWorld Session_init e))) in *.
  assert (H : forall p, In p (sent tr) ->
                        p = error_frame "Invalid JSON"
                        \/ exists text, text <> EmptyString
                                        /\ p = transcript_frame text).
  { clearbody tr. induction Hev as [|ev tr' Hok _ IH]; [intros p []|].
    intros p Hin. destruct ev; cbn [sent] in Hin; try (apply IH, Hin).
    destruct Hin as [<-|Hin]; [exact Hok|apply IH, Hin]. }
  split; [|split; [|reflexivity]].
  - apply Forall_forall. intros p Hin.
    destruct (H p Hin) as [->|[text [_ ->]]].
    + split; [reflexivity|left; reflexivity].
    + split; [reflexivity|right; reflexivity].
  - intros Hin. destruct (H _ Hin) as [Heq|[text [_ Heq]]]; discriminate.
Qed.

(** ** Stitching along a session *)

(** A run of chunks in an active session: the calls made are the first
    [n] stitched buffers, all of them if the handler got through. *)
Lemma loop_chunks (bs : list (list byte)) (chunks : list (list float32)) :
  Forall2 decodes_to bs chunks ->
  forall (o : list float32) (e : engine),
    let r := loop (map Binary bs) (mkWorld (mkSession true o) e) in
    exists n,
      n <= List.length chunks
      /\ calls (snd r) = firstn n (stitched o chunks)
      /\ (fst (fst r) = Returned -> n = List.length chunks)
      /\ (never_raises transcribe -> fst (fst r) = Returned).
Proof.
  induction 1 as [|b c bs cs [Hb Hne] _ IH]; intros o e r; subst r.
  - exists 0. cbn. split; [|split; [|split]]; auto.
  - pose proof (body_chunk b o c e Hb Hne) as Hbody.
    cbn [map]. destruct (transcribe e (stitch o c)) as [[text|ex] e'] eqn:Ht.
    + rewrite (loop_cons_val _ _ _ _ _ Hbody).
      destruct (IH (next_overlap c) e') as [n [Hn [Hc [Hr Ht']]]].
      exists (S n). cbn [fst snd List.length stitched firstn].
      split; [|split; [|split]].
      * lia.
      * rewrite !calls_app, Hc. unfold chunk_prefix.
        destruct (truthy text); reflexivity.
      * intros H. rewrite Hr by exact H. reflexivity.
      * exact Ht'.
    + rewrite (loop_cons_raise _ _ _ _ _ _ Hbody).
      exists 1. cbn [fst snd List.length stitched firstn].
      split; [|split; [|split]].
      * lia.
      * reflexivity.
      * intros H. discriminate H.
      * intros Hnr. destruct (Hnr e (stitch o c)) as [text [e'' H']].
        congruence.
Qed.

(** C5. After a [start] received at any point of a connection, for any
    run of chunks of at least one sample each: the buffer handed to the
    engine for a chunk is the overlap in front of it followed by the
    chunk, so its length is the sum of the two lengths; that overlap is
    empty for the first chunk and, for each later one, the last
    [OVERLAP_SAMPLES] samples of the chunk before it, all of that chunk
    when it has fewer.  Calls are made in order, one per chunk, for every
    chunk if the handler gets to the end of the run, which it does when no
    recognition call raises. *)
Theorem stitched_buffer_is_overlap_then_chunk
        (s : string) (d : list (string * json))
        (bs : list (list byte)) (chunks : list (list float32)) (w : world) :
  json_loads s = Loaded (JObject d) ->
  dict_get "type" d = Some (JString "start") ->
  Forall2 decodes_to bs chunks ->
  let r := loop (Text s :: map Binary bs) w in
  let buffers := calls (snd r) in
  List.length buffers <= List.length chunks
  /\ (forall k, k < List.length buffers ->
                nth k buffers [] = overlap_before chunks k ++ nth k chunks []
                /\ List.length (nth k buffers [])
                   = List.length (overlap_before chunks k)
                     + List.length (nth k chunks []))
  /\ (fst (fst r) = Returned -> List.length buffers = List.length chunks)
  /\ (never_raises transcribe -> fst (fst r) = Returned).
Proof.
  intros Hs Hd Hdec r buffers. subst buffers r.
  assert (Hstart : body (Text s) w
                   = (Val tt, mkWorld (mkSession true []) (eng w),
                      [SetActive true; SetOverlap []])).
  { unfold handler_body. rewrite Hs.
    unfold bind, cmd_get, ret. rewrite Hd. reflexivity. }
  rewrite (loop_cons_val _ _ _ _ _ Hstart).
  destruct (loop_chunks bs chunks Hdec [] (eng w)) as [n [Hn [Hc [Hr Ht]]]].
  cbn [fst snd]. rewrite calls_app, Hc. cbn [calls app].
  assert (Hlen : List.length (firstn n (stitched [] chunks)) = n).
  { rewrite length_firstn, stitched_length. lia. }
  rewrite Hlen. split; [|split; [intros k Hlt; split|split]].
  - exact Hn.
  - rewrite nth_firstn.
    destruct (Nat.ltb_spec k n) as [_|Hge]; [|lia].
    rewrite stitched_nth by lia. destruct k; reflexivity.
  - rewrite nth_firstn.
    destruct (Nat.ltb_spec k n) as [_|Hge]; [|lia].
    rewrite stitched_nth by lia. rewrite length_app.
    destruct k; reflexivity.
  - exact Hr.
  - exact Ht.
Qed.

(** ** Control messages that are neither [start] nor [stop] *)

(** C3, amended. A text message on which [json.loads] raises
    [json.JSONDecodeError] is answered by exactly one frame, the error
    frame, and the body executes [continue] with the session as it was.
    A text message for which [json.loads] returns a JSON object whose
    ["type"] is neither ["start"] nor ["stop"] (or is missing) is answered
    by no frame at all; the session is as it was and the body ends
    normally.  In both cases the loop goes on with the next message. *)
Theorem unrecognized_control_message (s : string) (w : world) :
  (json_loads s = DecodeError ->
   body (Text s) w = (Continue, w, [Sent (error_frame "Invalid JSON")])
   /\ is_frame "error" (error_frame "Invalid JSON") = true
   /\ forall rest,
       loop (Text s :: rest) w
       = (fst (fst (loop rest w)), snd (fst (loop rest w)),
          Sent (error_frame "Invalid JSON") :: snd (loop rest w)))
  /\ (forall d,
        json_loads s = Loaded (JObject d) ->
        py_eq_str (dict_get "type" d) "start" = false ->
        py_eq_str (dict_get "type" d) "stop" = false ->
        body (Text s) w = (Val tt, w, [])
        /\ forall rest, loop (Text s :: rest) w = loop rest w).
Proof.
  split.
  - intros Hs.
    assert (H : body (Text s) w
                = (Continue, w, [Sent (error_frame "Invalid JSON")])).
    { unfold handler_body. rewrite Hs. reflexivity. }
    split; [exact H|]. split; [reflexivity|].
    intros rest. rewrite (loop_cons_continue _ rest _ _ _ H). reflexivity.
  - intros d Hs H1 H2.
    assert (H : body (Text s) w = (Val tt, w, [])).
    { unfold handler_body. rewrite Hs.
      unfold bind, cmd_get, ret. rewrite H1, H2. reflexivity. }
    split; [exact H|].
    intros rest. rewrite (loop_cons_val _ rest _ _ _ H).
    destruct (loop rest w) as [[st w2] t2]. reflexivity.
Qed.

(** ** A recognition call that raises *)

(** C1, amended. If the recognition call raises while a chunk is
    processed, the handler does not catch the exception: no frame is sent
    for that chunk, the exception leaves the loop, so that no later
    message of the connection is processed, and the overlap has already
    been set to the chunk's tail. *)
Theorem engine_error_ends_the_loop
        (b : list byte) (o chunk : list float32) (e e' : engine) (ex : exn)
        (rest : list message) :
  frombuffer b = Some chunk -> chunk <> [] ->
  transcribe e (stitch o chunk) = (inr ex, e') ->
  let r := loop (Binary b :: rest) (mkWorld (mkSession true o) e) in
  fst (fst r) = Propagated ex
  /\ snd r = [SetOverlap (next_overlap chunk); Transcribe (stitch o chunk)]
  /\ sent (snd r) = []
  /\ snd (fst r) = mkWorld (mkSession true (next_overlap chunk)) e'.
Proof.
  intros Hb Hne Ht r. subst r.
  pose proof (body_chunk b o chunk e Hb Hne) as Hbody.
  rewrite Ht in Hbody.
  rewrite (loop_cons_raise _ rest _ _ _ _ Hbody).
  split; [|split; [|split]]; reflexivity.
Qed.

(** Text that reads as JSON but not as an object: [cmd.get] raises
    [AttributeError], which leaves the loop; nothing is sent. *)
Lemma non_object_text_raises (s : string) (cmd : json) (w : world)
      (rest : list message) :
  json_loads s = Loaded cmd ->
  (forall d, cmd <> JObject d) ->
  loop (Text s :: rest) w = (Propagated AttributeError, w, []).
Proof.
  intros Hs Hno.
  apply loop_cons_raise. unfold handler_body. rewrite Hs.
  destruct cmd; try reflexivity. exfalso. apply (Hno members). reflexivity.
Qed.

(** Text on which [json.loads] raises something other than
    [json.JSONDecodeError]: the handler does not catch it, so it leaves
    the loop; nothing is sent and no later message is processed. *)
Lemma loads_exception_leaves_the_loop (s : string) (ex : exn) (w : world)
      (rest : list message) :
  json_loads s = LoadsRaised ex ->
  loop (Text s :: rest) w = (Propagated ex, w, []).
Proof.
  intros Hs. apply loop_cons_raise. unfold handler_body. rewrite Hs.
  reflexivity.
Qed.

(** A binary frame of at least four bytes whose length is not a multiple
    of four, in an active session: [np.frombuffer] raises, nothing is
    decoded, and the exception leaves the loop. *)
Lemma ragged_frame_raises
      (b : list byte) (o : list float32) (e : engine) (rest : list message) :
  4 <= List.length b -> Nat.modulo (List.length b) 4 <> 0 ->
  let w := mkWorld (mkSession true o) e in
  body (Binary b) w = (Raise ValueError, w, [])
  /\ loop (Binary b :: rest) w = (Propagated ValueError, w, []).
Proof.
  intros Hlen Hmod w.
  assert (H : body (Binary b) w = (Raise ValueError, w, [])).
  { assert (Hn : Nat.eqb (Nat.div (List.length b) 4) 0 = false).
    { apply Nat.eqb_neq. intros H0.
      apply Nat.div_small_iff in H0; lia. }
    unfold handler_body, bind, get_session, np_frombuffer, w;
      cbn [session active negb].
    rewrite Hn, (frombuffer_ragged b Hmod). reflexivity. }
  split; [exact H|]. apply (loop_cons_raise _ rest _ _ _ _ H).
Qed.

End Facts.

(** ** Concrete runs *)

(** [start], one chunk, [stop]: one call, one transcript, no error. *)
Example start_chunk_stop :
  demo_handler [start_msg; Binary (ramp_bytes 1 3); stop_msg] [inl "hi"]
  = (Returned, mkWorld (mkSession false []) [],
     [SetActive true; SetOverlap [];
      SetOverlap (ramp 1 3); Transcribe (ramp 1 3);
      Sent (transcript_frame "hi");
      SetActive false; SetOverlap []]).
Proof. vm_compute. reflexivity. Qed.

(** Two chunks in a row: the second call gets the first chunk in front,
    and a silent second chunk is answered by no frame. *)
Example two_chunks :
  demo_handler [start_msg; Binary (ramp_bytes 1 3); Binary (ramp_bytes 7 2)]
               [inl "hi"; inl EmptyString]
  = (Returned, mkWorld (mkSession true (ramp 7 2)) [],
     [SetActive true; SetOverlap [];
      SetOverlap (ramp 1 3); Transcribe (ramp 1 3);
      Sent (transcript_frame "hi");
      SetOverlap (ramp 7 2); Transcribe (ramp 1 3 ++ ramp 7 2)]).
Proof. vm_compute. reflexivity. Qed.

(** Audio with no [start] before it: nothing happens. *)
Example chunk_without_start :
  demo_handler [Binary (ramp_bytes 1 3)] [inl "hi"]
  = (Returned, mkWorld Session_init [inl "hi"], []).
Proof. vm_compute. reflexivity. Qed.

(** A chunk as long as the overlap and one a sample longer. *)
Example next_overlap_at_the_bound :
  next_overlap (ramp 0 2400) = ramp 0 2400
  /\ next_overlap (ramp 0 2401) = ramp 1 2400.
Proof. split; vm_compute; reflexivity. Qed.

(** C2. After [start], a binary frame of five bytes is not cut down to
    four: [np.frombuffer] raises [ValueError], which leaves the handler;
    no recognition call is made, the overlap stays empty, and the
    well-formed frame that follows is never processed. *)
Theorem ragged_frame_faults_the_connection :
  Nat.div 5 4 = 1
  /\ frombuffer [x00; x00; x80; x3f] = Some [1065353216%Z]
  /\ demo_handler
       [start_msg; Binary [x00; x00; x80; x3f; x00];
        Binary [x00; x00; x80; x3f]]
       [inl "one"; inl "two"]
     = (Propagated ValueError,
        mkWorld (mkSession true []) [inl "one"; inl "two"],
        [SetActive true; SetOverlap []]).
Proof. split; [|split]; vm_compute; reflexivity. Qed.

(** C3 as stated fails on [{"type": "ping"}]: the text reads as a JSON
    object of an unknown type, and no frame is sent. *)
Lemma unknown_type_sends_no_error :
  loads_lite (type_message "ping")
  = Loaded (JObject [("type", JString "ping")])
  /\ ~ answered_by_one_error
        (mkWorld Session_init [])
        (demo_body ping_msg (mkWorld Session_init [])).
Proof.
  split; [vm_compute; reflexivity|].
  intros [[p [H _]] _]. vm_compute in H. discriminate H.
Qed.

(** C1 as stated fails on a three-sample chunk whose recognition call
    raises: no frame is sent and the exception leaves the loop body. *)
Lemma engine_error_is_not_reported :
  scripted [inr (EngineError "boom")] (stitch [] (ramp 1 3))
  = (inr (EngineError "boom"), [])
  /\ ~ engine_error_reported
        (mkWorld (mkSession true []) [inr (EngineError "boom")])
        (demo_body (Binary (ramp_bytes 1 3))
           (mkWorld (mkSession true []) [inr (EngineError "boom")])).
Proof.
  split; [reflexivity|].
  intros [[p [H _]] _]. vm_compute in H. exact H.
Qed.

(** A three-byte frame in an active session (C9). *)
Lemma short_frame_is_noop_witness :
  List.length [x01; x02; x03] < 4
  /\ demo_body (Binary [x01; x02; x03])
       (mkWorld (mkSession true (ramp 1 3)) [inl "hi"])
     = (Continue, mkWorld (mkSession true (ramp 1 3)) [inl "hi"], []).
Proof.
  split; [vm_compute; lia|].
  apply (short_frame_is_noop loads_lite scripted
           [x01; x02; x03] (ramp 1 3) [inl "hi"]).
  vm_compute; lia.
Defined.

(** A three-sample chunk heard as ["hi"] (C7). *)
Lemma transcript_iff_text_nonempty_witness :
  frombuffer (ramp_bytes 1 3) = Some (ramp 1 3)
  /\ ramp 1 3 <> []
  /\ sent (snd (demo_body (Binary (ramp_bytes 1 3))
                  (mkWorld (mkSession true (ramp 9 2)) [inl "hi"])))
     = [transcript_frame "hi"].
Proof.
  assert (Hb : frombuffer (ramp_bytes 1 3) = Some (ramp 1 3)) by reflexivity.
  assert (Hne : ramp 1 3 <> []) by discriminate.
  split; [exact Hb|]. split; [exact Hne|].
  apply (transcript_iff_text_nonempty loads_lite scripted
           (ramp_bytes 1 3) (ramp 9 2) (ramp 1 3) [inl "hi"] Hb Hne).
  - reflexivity.
  - discriminate.
Defined.

(** A three-sample chunk on which the engine raises (C10). *)
Lemma overlap_advances_before_call_witness :
  frombuffer (ramp_bytes 1 3) = Some (ramp 1 3)
  /\ ramp 1 3 <> []
  /\ session (snd (fst (demo_body (Binary (ramp_bytes 1 3))
                          (mkWorld (mkSession true (ramp 9 2))
                             [inr (EngineError "boom")]))))
     = mkSession true (next_overlap (ramp 1 3)).
Proof.
  assert (Hb : frombuffer (ramp_bytes 1 3) = Some (ramp 1 3)) by reflexivity.
  assert (Hne : ramp 1 3 <> []) by discriminate.
  split; [exact Hb|]. split; [exact Hne|].
  apply (overlap_advances_before_call loads_lite scripted
           (ramp_bytes 1 3) (ramp 9 2) (ramp 1 3)
           [inr (EngineError "boom")] Hb Hne).
Defined.

(** A chunk of 2500 samples and then one of two samples: the second
    buffer is the last 2400 samples of the first chunk and the two new
    ones (C5). *)
Lemma stitched_buffer_is_overlap_then_chunk_witness :
  loads_lite (type_message "start")
  = Loaded (JObject [("type", JString "start")])
  /\ dict_get "type" [("type", JString "start")] = Some (JString "start")
  /\ Forall2 decodes_to [ramp_bytes 0 2500; ramp_bytes 7 2]
                        [ramp 0 2500; ramp 7 2]
  /\ nth 1 (calls (snd (demo_handler
                          [start_msg; Binary (ramp_bytes 0 2500);
                           Binary (ramp_bytes 7 2)]
                          [inl "hi"; inl EmptyString]))) []
     = overlap_before [ramp 0 2500; ramp 7 2] 1 ++ ramp 7 2
  /\ List.length (overlap_before [ramp 0 2500; ramp 7 2] 1) = 2400.
Proof.
  assert (Hs : loads_lite (type_message "start")
               = Loaded (JObject [("type", JString "start")]))
    by (vm_compute; reflexivity).
  assert (Hd : dict_get "type" [("type", JString "start")]
               = Some (JString "start")) by reflexivity.
  assert (Hdec : Forall2 decodes_to [ramp_bytes 0 2500; ramp_bytes 7 2]
                                   [ramp 0 2500; ramp 7 2]).
  { constructor; [split; [vm_compute; reflexivity|]|].
    - intros H. apply (f_equal (@List.length float32)) in H.
      vm_compute in H. discriminate H.
    - constructor; [split; [vm_compute; reflexivity|discriminate]|].
      constructor. }
  split; [exact Hs|]. split; [exact Hd|]. split; [exact Hdec|].
  split; [|vm_compute; reflexivity].
  apply (stitched_buffer_is_overlap_then_chunk loads_lite scripted
           (type_message "start") [("type", JString "start")]
           [ramp_bytes 0 2500; ramp_bytes 7 2] [ramp 0 2500; ramp 7 2]
           (mkWorld Session_init [inl "hi"; inl EmptyString]) Hs Hd Hdec).
  apply Nat.ltb_lt. vm_compute. reflexivity.
Defined.

(** Unreadable text, and a readable object of unknown type (C3). *)
Lemma unrecognized_control_message_witness :
  loads_lite "start" = DecodeError
  /\ loads_lite (type_message "ping")
     = Loaded (JObject [("type", JString "ping")])
  /\ demo_body (Text "start") (mkWorld (mkSession true (ramp 1 3)) [])
     = (Continue, mkWorld (mkSession true (ramp 1 3)) [],
        [Sent (error_frame "Invalid JSON")])
  /\ demo_body ping_msg (mkWorld (mkSession true (ramp 1 3)) [])
     = (Val tt, mkWorld (mkSession true (ramp 1 3)) [], []).
Proof.
  assert (H1 : loads_lite "start" = DecodeError) by (vm_compute; reflexivity).
  assert (H2 : loads_lite (type_message "ping")
               = Loaded (JObject [("type", JString "ping")]))
    by (vm_compute; reflexivity).
  split; [exact H1|]. split; [exact H2|]. split.
  - apply (unrecognized_control_message loads_lite scripted
             "start" (mkWorld (mkSession true (ramp 1 3)) [])). exact H1.
  - apply (proj2 (unrecognized_control_message loads_lite scripted
                    (type_message "ping")
                    (mkWorld (mkSession true (ramp 1 3)) []))
             [("type", JString "ping")] H2); reflexivity.
Defined.

(** The engine raises on the first of two chunks (C1). *)
Lemma engine_error_ends_the_loop_witness :
  frombuffer (ramp_bytes 1 3) = Some (ramp 1 3)
  /\ ramp 1 3 <> []
  /\ scripted [inr (EngineError "boom"); inl "hi"] (stitch [] (ramp 1 3))
     = (inr (EngineError "boom"), [inl "hi"])
  /\ fst (fst (run_loop loads_lite scripted
                 [Binary (ramp_bytes 1 3); Binary (ramp_bytes 7 2)]
                 (mkWorld (mkSession true [])
                    [inr (EngineError "boom"); inl "hi"])))
     = Propagated (EngineError "boom").
Proof.
  assert (Hb : frombuffer (ramp_bytes 1 3) = Some (ramp 1 3)) by reflexivity.
  assert (Hne : ramp 1 3 <> []) by discriminate.
  assert (Ht : scripted [inr (EngineError "boom"); inl "hi"]
                 (stitch [] (ramp 1 3))
               = (inr (EngineError "boom"), [inl "hi"])) by reflexivity.
  split; [exact Hb|]. split; [exact Hne|]. split; [exact Ht|].
  apply (engine_error_ends_the_loop loads_lite scripted
           (ramp_bytes 1 3) [] (ramp 1 3)
           [inr (EngineError "boom"); inl "hi"] [inl "hi"]
           (EngineError "boom") [Binary (ramp_bytes 7 2)] Hb Hne Ht).
Defined.

(** ** More on the connection loop *)

Section Connection.

Variable json_loads : string -> loads_result.
Context {engine : Type}.
Variable transcribe : engine -> list float32 -> (string + exn) * engine.

Local Notation "'body'" := (handler_body json_loads transcribe).
Local Notation "'loop'" := (run_loop json_loads transcribe).

Lemma body_shape (m : message) (w : world) :
  step_shape transcribe m w (body m w).
Proof.
  destruct w as [[a o] e]. destruct m as [s|b].
  - unfold handler_body. destruct (json_loads s) as [cmd| |ex].
    + destruct cmd as [| | | | |d]; try apply shape_not_dict.
      unfold bind, cmd_get, ret.
      destruct (py_eq_str (dict_get "type" d) "start").
      { exact (shape_start transcribe s (mkWorld (mkSession a o) e)). }
      destruct (py_eq_str (dict_get "type" d) "stop").
      { exact (shape_stop transcribe s (mkWorld (mkSession a o) e)). }
      apply shape_other.
    + apply shape_bad_json.
    + apply shape_loads_raised.
  - destruct a.
    + destruct (Nat.lt_ge_cases (List.length b) 4) as [Hlt|Hge].
      * assert (Hn : Nat.div (List.length b) 4 = 0)
          by (apply Nat.div_small; exact Hlt).
        unfold handler_body, bind, get_session; cbn [session active negb].
        rewrite Hn. apply shape_skip. right. exact Hlt.
      * destruct (frombuffer b) as [chunk|] eqn:Hb.
        -- assert (Hne : chunk <> []).
           { intros ->. apply frombuffer_length in Hb. simpl in Hb. lia. }
           rewrite (body_chunk json_loads transcribe b o chunk e Hb Hne).
           destruct (transcribe e (stitch o chunk)) as [[text|ex] e'] eqn:Ht.
           ++ apply shape_heard; assumption.
           ++ apply shape_failed; assumption.
        -- assert (Hmod : Nat.modulo (List.length b) 4 <> 0).
           { intros H0. apply Nat.Div0.div_exact in H0.
             destruct (frombuffer_aligned _ b H0) as [c [Hc _]]. congruence. }
           rewrite (proj1 (ragged_frame_raises json_loads transcribe
                             b o e [] Hge Hmod)).
           apply shape_ragged; [reflexivity|exact Hge|exact Hmod].
    + apply shape_skip. left. reflexivity.
Qed.

(** A property of the effects of every step is a property of the whole
    trace. *)
Lemma loop_trace_forall (P : event -> Prop) :
  (forall m w, Forall P (snd (body m w))) ->
  forall msgs w, Forall P (snd (loop msgs w)).
Proof.
  intros Hstep msgs. induction msgs as [|m rest IH]; intros w.
  - constructor.
  - specialize (Hstep m w). cbn [run_loop].
    destruct (body m w) as [[r w1] t1]. cbn [snd] in Hstep.
    specialize (IH w1). destruct (loop rest w1) as [[st w2] t2].
    cbn [snd] in IH.
    destruct r as [[]| |ex]; cbn [snd];
      try (apply Forall_app; split; assumption).
    exact Hstep.
Qed.

(** A property of the session that every step keeps holds at the end. *)
Lemma loop_session_invariant (I : Session -> Prop) :
  (forall m w, I (session w) -> I (session (snd (fst (body m w))))) ->
  forall msgs w, I (session w) -> I (session (snd (fst (loop msgs w)))).
Proof.
  intros Hstep msgs. induction msgs as [|m rest IH]; intros w Hw.
  - exact Hw.
  - specialize (Hstep m w Hw). cbn [run_loop].
    destruct (body m w) as [[r w1] t1]. cbn [fst snd] in Hstep.
    specialize (IH w1 Hstep). destruct (loop rest w1) as [[st w2] t2].
    destruct r as [[]| |ex]; cbn [fst snd] in *; assumption.
Qed.

(** The loop on [m1 ++ m2] is the loop on [m1] and, if no exception left
    it, the loop on [m2] from the world [m1] ended in. *)
Lemma loop_app (m1 m2 : list message) (w : world) :
  loop (m1 ++ m2) w
  = match loop m1 w with
    | (Returned, w1, t1) =>
        (fst (fst (loop m2 w1)), snd (fst (loop m2 w1)),
         t1 ++ snd (loop m2 w1))
    | (Propagated ex, w1, t1) => (Propagated ex, w1, t1)
    end.
Proof.
  revert w. induction m1 as [|m rest IH]; intros w.
  - cbn [app run_loop]. destruct (loop m2 w) as [[st w2] t2]. reflexivity.
  - cbn [app run_loop]. destruct (body m w) as [[r w1] t1].
    destruct r as [[]| |ex]; try reflexivity;
      rewrite IH; destruct (loop rest w1) as [[[|ex'] w2] t2];
      cbn [fst snd]; try reflexivity;
      rewrite app_assoc; reflexivity.
Qed.

(** X2. A [start] message makes the session active with an empty
    overlap whatever it was before, without touching the engine or
    sending anything; so nothing of the earlier session reaches what
    follows: the rest of the connection runs the same from any two worlds
    that agree on the engine. *)
Theorem start_forgets_the_past
        (s : string) (d : list (string * json)) (rest : list message)
        (w w' : world) :
  json_loads s = Loaded (JObject d) ->
  dict_get "type" d = Some (JString "start") ->
  eng w = eng w' ->
  body (Text s) w
  = (Val tt, mkWorld (mkSession true []) (eng w),
     [SetActive true; SetOverlap []])
  /\ loop (Text s :: rest) w = loop (Text s :: rest) w'.
Proof.
  intros Hs Hd He.
  assert (H : forall v : world,
             body (Text s) v
             = (Val tt, mkWorld (mkSession true []) (eng v),
                [SetActive true; SetOverlap []])).
  { intros v. unfold handler_body. rewrite Hs.
    unfold bind, cmd_get, ret. rewrite Hd. reflexivity. }
  split; [apply H|].
  cbn [run_loop]. rewrite (H w), (H w'), He. reflexivity.
Qed.

(** X3. A [stop] message makes the session idle with an empty overlap,
    without a recognition call and without a frame; the binary frames
    that follow it, whatever their bytes, are as if they had not been
    sent. *)
Theorem stop_ends_the_session
        (s : string) (d : list (string * json)) (bs : list (list byte))
        (rest : list message) (w : world) :
  json_loads s = Loaded (JObject d) ->
  dict_get "type" d = Some (JString "stop") ->
  body (Text s) w
  = (Val tt, mkWorld (mkSession false []) (eng w),
     [SetActive false; SetOverlap []])
  /\ loop (Text s :: map Binary bs ++ rest) w = loop (Text s :: rest) w.
Proof.
  intros Hs Hd.
  assert (H : body (Text s) w
              = (Val tt, mkWorld (mkSession false []) (eng w),
                 [SetActive false; SetOverlap []])).
  { unfold handler_body. rewrite Hs.
    unfold bind, cmd_get, ret. rewrite Hd. reflexivity. }
  split; [exact H|].
  cbn [run_loop]. rewrite H.
  assert (Hidle : forall v : world,
             active (session v) = false ->
             loop (map Binary bs ++ rest) v = loop rest v).
  { intros v Hv. induction bs as [|b bs IH]; [reflexivity|].
    cbn [map app run_loop].
    assert (Hb : body (Binary b) v = (Continue, v, [])).
    { destruct v as [[a o] e]. cbn in Hv. subst a. reflexivity. }
    rewrite Hb, IH. destruct (loop rest v) as [[st w2] t2]. reflexivity. }
  rewrite Hidle by reflexivity. reflexivity.
Qed.

(** X4. Along a whole connection an idle session never carries an
    overlap: whenever the handler stops with the session inactive, the
    overlap is empty. *)
Theorem idle_session_has_no_overlap (msgs : list message) (e : engine) :
  idle_is_empty (session (snd (fst (handler json_loads transcribe msgs e)))).
Proof.
  unfold handler. apply loop_session_invariant.
  - intros m w Hw. pose proof (body_shape m w) as H.
    destruct (body m w) as [[r w1] t1]. cbn [fst snd].
    inversion H; subst; try exact Hw; intros Hact; try reflexivity;
      cbn in Hact; discriminate Hact.
  - intros _. reflexivity.
Qed.

Lemma in_calls (a : list float32) (tr : list event) :
  In a (calls tr) <-> In (Transcribe a) tr.
Proof.
  induction tr as [|ev tr IH]; [reflexivity|].
  destruct ev; cbn [calls In]; rewrite IH; split;
    try (intros [H|H]; [discriminate H|exact H]);
    try (intros H; right; exact H).
  - intros [->|H]; [left; reflexivity|right; exact H].
  - intros [H|H]; [left; congruence|right; exact H].
Qed.

Lemma in_sent (p : json) (tr : list event) :
  In p (sent tr) <-> In (Sent p) tr.
Proof.
  induction tr as [|ev tr IH]; [reflexivity|].
  destruct ev; cbn [sent In]; rewrite IH; split;
    try (intros [H|H]; [discriminate H|exact H]);
    try (intros H; right; exact H).
  - intros [->|H]; [left; reflexivity|right; exact H].
  - intros [H|H]; [left; congruence|right; exact H].
Qed.

(** X5. The engine is never handed an empty buffer: every recognition
    call of a connection gets at least one sample. *)
Theorem engine_never_gets_empty_buffer (msgs : list message) (e : engine) :
  Forall (fun a => 1 <= List.length a)
         (calls (snd (handler json_loads transcribe msgs e))).
Proof.
  apply Forall_forall.
  intros a Hin. apply in_calls in Hin. unfold handler in Hin.
  pose proof (loop_trace_forall
                (fun ev => match ev with
                           | Transcribe b => 1 <= List.length b
                           | _ => True
                           end)) as Hall.
  assert (Hstep : forall m w,
             Forall (fun ev => match ev with
                               | Transcribe b => 1 <= List.length b
                               | _ => True
                               end) (snd (body m w))).
  { intros m w. pose proof (body_shape m w) as H.
    destruct (body m w) as [[r w1] t1]. cbn [snd].
    assert (Hlen : forall (o c : list float32),
               c <> [] -> 1 <= List.length (stitch o c)).
    { intros o c Hc. rewrite stitch_app, length_app.
      destruct c; [congruence|simpl; lia]. }
    inversion H; subst; unfold chunk_prefix; repeat constructor;
      try (apply Hlen; assumption).
    destruct (truthy text); repeat constructor. }
  specialize (Hall Hstep msgs (mkWorld Session_init e)).
  rewrite Forall_forall in Hall. apply (Hall _ Hin).
Qed.

(** X6. In an active session a binary frame reaches the engine exactly
    when it has at least four bytes and a whole number of samples; the
    one buffer then has the overlap's samples and a quarter of the
    frame's bytes. *)
Theorem frame_reaches_engine_iff_whole_samples
        (b : list byte) (o : list float32) (e : engine) :
  let tr := snd (body (Binary b) (mkWorld (mkSession true o) e)) in
  (calls tr <> [] <->
   4 <= List.length b /\ Nat.modulo (List.length b) 4 = 0)
  /\ (forall a, In a (calls tr) ->
                calls tr = [a]
                /\ List.length a = List.length o + Nat.div (List.length b) 4).
Proof.
  intros tr. subst tr.
  destruct (Nat.lt_ge_cases (List.length b) 4) as [Hlt|Hge].
  - assert (Hn : Nat.div (List.length b) 4 = 0)
      by (apply Nat.div_small; exact Hlt).
    assert (Hb : body (Binary b) (mkWorld (mkSession true o) e)
                 = (Continue, mkWorld (mkSession true o) e, [])).
    { unfold handler_body, bind, get_session; cbn [session active negb].
      rewrite Hn. reflexivity. }
    rewrite Hb. cbn [snd calls]. split.
    + split; [congruence|]. intros [H _]. lia.
    + intros a [].
  - destruct (Nat.eq_dec (Nat.modulo (List.length b) 4) 0) as [Hz|Hnz].
    + pose proof Hz as Hx. apply Nat.Div0.div_exact in Hx.
      destruct (frombuffer_aligned _ b Hx) as [c [Hc Hl]].
      assert (Hne : c <> []).
      { intros ->. cbn [List.length] in Hl. rewrite <- Hl in Hx. lia. }
      rewrite (body_chunk json_loads transcribe b o c e Hc Hne).
      assert (Hlen : List.length (stitch o c)
                     = List.length o + Nat.div (List.length b) 4).
      { rewrite stitch_app, length_app, Hl. reflexivity. }
      destruct (transcribe e (stitch o c)) as [[text|ex] e'];
        cbn [snd]; unfold chunk_prefix; rewrite ?calls_app;
        cbn [calls app].
      * assert (Hno : calls (if truthy text
                             then [Sent (transcript_frame text)] else [])
                      = []) by (destruct (truthy text); reflexivity).
        rewrite Hno. split.
        -- split; [intros _; split; assumption|discriminate].
        -- intros a [<-|[]]. split; [reflexivity|exact Hlen].
      * split.
        -- split; [intros _; split; assumption|discriminate].
        -- intros a [<-|[]]. split; [reflexivity|exact Hlen].
    + rewrite (proj1 (ragged_frame_raises json_loads transcribe
                        b o e [] Hge Hnz)).
      cbn [snd calls]. split.
      * split; [congruence|]. intros [_ H]. congruence.
      * intros a [].
Qed.

(** X7. A message is answered by at most one frame and costs at most one
    recognition call, and only binary messages cost one: along a
    connection there are at most as many frames as messages, at most as
    many calls as binary messages, and at most as many transcripts as
    calls. *)
Theorem at_most_one_frame_per_message (msgs : list message) (w : world) :
  let tr := snd (loop msgs w) in
  List.length (sent tr) <= List.length msgs
  /\ List.length (calls tr) <= binary_count msgs
  /\ List.length (filter (is_frame "transcript") (sent tr))
     <= List.length (calls tr).
Proof.
  revert w. induction msgs as [|m rest IH]; intros w tr; subst tr.
  - cbn. repeat split; constructor.
  - assert (Hstep :
      List.length (sent (snd (body m w))) <= 1
      /\ List.length (calls (snd (body m w)))
         <= binary_count [m]
      /\ List.length (filter (is_frame "transcript") (sent (snd (body m w))))
         <= List.length (calls (snd (body m w)))).
    { pose proof (body_shape m w) as H.
      destruct (body m w) as [[r w1] t1]. cbn [snd].
      inversion H; subst; unfold chunk_prefix; cbn; try lia;
        destruct (truthy text); cbn; lia. }
    destruct Hstep as [H1 [H2 H3]].
    specialize (IH (snd (fst (body m w)))).
    cbn [run_loop]. destruct (body m w) as [[r w1] t1].
    cbn [fst snd] in *. destruct IH as [I1 [I2 I3]].
    destruct (loop rest w1) as [[st w2] t2]. cbn [snd] in *.
    assert (Hb : binary_count (m :: rest)
                 = binary_count [m] + binary_count rest)
      by (destruct m; reflexivity).
    destruct r as [[]| |ex]; cbn [snd List.length];
      rewrite ?sent_app, ?calls_app, ?filter_app, ?length_app, ?Hb; lia.
Qed.

(** X8. A text message never reaches the engine, whatever it says and
    however it is read: no recognition call is made and the engine is as
    before.  In particular [stop] does not transcribe anything. *)
Theorem text_never_reaches_engine (s : string) (w : world) :
  calls (snd (body (Text s) w)) = []
  /\ eng (snd (fst (body (Text s) w))) = eng w.
Proof.
  pose proof (body_shape (Text s) w) as H.
  destruct (body (Text s) w) as [[r w1] t1]. cbn [fst snd].
  inversion H; subst; split; reflexivity.
Qed.

(** X9. Every transcript frame of a connection carries a non-empty text
    and is marked not final. *)
Theorem transcripts_are_nonempty_and_not_final
        (msgs : list message) (e : engine) (p : json) :
  In p (sent (snd (handler json_loads transcribe msgs e))) ->
  is_frame "transcript" p = true ->
  exists text d,
    p = JObject d
    /\ dict_get "text" d = Some (JString text) /\ text <> EmptyString
    /\ dict_get "is_final" d = Some (JBool false).
Proof.
  intros Hin Ht. apply in_sent in Hin. unfold handler in Hin.
  destruct (loop_effects json_loads transcribe msgs (mkWorld Session_init e))
    as [Hev _].
  rewrite Forall_forall in Hev. specialize (Hev _ Hin). cbn in Hev.
  destruct Hev as [->|[text [Hne ->]]]; [discriminate Ht|].
  exists text, [("type", JString "transcript"); ("text", JString text);
                ("is_final", JBool false)].
  repeat split; [exact Hne].
Qed.

End Connection.

(** ** Startup: binding with retries *)

Module StartupFacts.
Import Startup.

(** The outcome of the attempts, read off what they meet. *)
Lemma retry_bind_busy_prefix (serve : nat -> bind_result)
      (pre rest : list nat) :
  Forall (fun j => serve j = OSError 48 /\ j < 6) pre ->
  retry_bind serve (pre ++ rest)
  = (fst (retry_bind serve rest),
     flat_map busy_round pre ++ snd (retry_bind serve rest)).
Proof.
  induction 1 as [|j pre [Hj Hlt] _ IH].
  - cbn. destruct (retry_bind serve rest). reflexivity.
  - cbn [app retry_bind flat_map]. rewrite Hj.
    apply Nat.ltb_lt in Hlt. rewrite Hlt. cbn [Z.eqb Pos.eqb andb].
    rewrite IH. cbn [fst snd]. unfold busy_round.
    rewrite <- app_assoc. reflexivity.
Qed.

Lemma seq_split_at (k : nat) :
  1 <= k <= 6 -> seq 1 6 = seq 1 (k - 1) ++ k :: seq (S k) (6 - k).
Proof.
  intros H.
  destruct k as [|[|[|[|[|[|[|k]]]]]]]; try lia; reflexivity.
Qed.

Lemma busy_before (serve : nat -> bind_result) (k : nat) :
  k <= 6 ->
  (forall j, 1 <= j < k -> serve j = OSError 48) ->
  Forall (fun j => serve j = OSError 48 /\ j < 6) (seq 1 (k - 1)).
Proof.
  intros Hk H. apply Forall_forall. intros j Hj. apply in_seq in Hj.
  split; [apply H; lia|lia].
Qed.

(** X10. If the port is busy ([errno] 48) on the attempts before the
    [k]-th and the [k]-th binds, for a [k] from 1 to 6, then [main]
    serves: it has slept 2 s after each busy attempt, [k - 1] times in
    all, and prints [READY] once, as the last thing it does. *)
Theorem main_serves_after_busy_attempts
        (serve : nat -> bind_result) (k : nat) :
  1 <= k <= 6 ->
  (forall j, 1 <= j < k -> serve j = OSError 48) ->
  serve k = Bound ->
  main serve
  = (Serving,
     PrintLoading
     :: flat_map busy_round (seq 1 (k - 1))
        ++ [TryServe k; PrintListening; PrintREADY])
  /\ List.length (filter is_sleep (snd (main serve))) = k - 1
  /\ List.length (filter is_ready (snd (main serve))) = 1.
Proof.
  intros Hk Hbusy Hbound.
  assert (Hmain : main serve
                  = (Serving,
                     PrintLoading
                     :: flat_map busy_round (seq 1 (k - 1))
                        ++ [TryServe k; PrintListening; PrintREADY])).
  { unfold main. rewrite (seq_split_at k Hk).
    rewrite (retry_bind_busy_prefix serve _ _
               (busy_before serve k (proj2 Hk) Hbusy)).
    cbn [retry_bind]. rewrite Hbound. reflexivity. }
  split; [exact Hmain|]. rewrite Hmain. cbn [snd].
  destruct k as [|[|[|[|[|[|[|k]]]]]]]; try lia; split; reflexivity.
Qed.

(** X11. If the port is busy on the attempts before the [k]-th and the
    [k]-th meets an [OSError] that is not retried, that is any other
    [errno], or [errno] 48 on the sixth attempt, then [main] raises that
    error at once: [READY] is never printed and nothing is tried after
    it. *)
Theorem main_raises_unretried_error
        (serve : nat -> bind_result) (k : nat) (errno : Z) :
  1 <= k <= 6 ->
  (forall j, 1 <= j < k -> serve j = OSError 48) ->
  serve k = OSError errno ->
  errno <> 48%Z \/ k = 6 ->
  main serve
  = (Raised errno,
     PrintLoading :: flat_map busy_round (seq 1 (k - 1)) ++ [TryServe k])
  /\ filter is_ready (snd (main serve)) = [].
Proof.
  intros Hk Hbusy Herr Hwhy.
  assert (Hcond : Z.eqb errno 48 && Nat.ltb k 6 = false).
  { destruct Hwhy as [Hne| ->].
    - apply Z.eqb_neq in Hne. rewrite Hne. reflexivity.
    - apply andb_false_r. }
  assert (Hmain : main serve
                  = (Raised errno,
                     PrintLoading
                     :: flat_map busy_round (seq 1 (k - 1))
                        ++ [TryServe k])).
  { unfold main. rewrite (seq_split_at k Hk).
    rewrite (retry_bind_busy_prefix serve _ _
               (busy_before serve k (proj2 Hk) Hbusy)).
    cbn [retry_bind]. rewrite Herr, Hcond. reflexivity. }
  split; [exact Hmain|]. rewrite Hmain. cbn [snd].
  destruct k as [|[|[|[|[|[|[|k]]]]]]]; try lia; reflexivity.
Qed.

(** The three ways an attempt can go. *)
Lemma attempt_cases (serve : nat -> bind_result) (j : nat) :
  serve j = Bound
  \/ serve j = OSError 48
  \/ exists errno, serve j = OSError errno /\ errno <> 48%Z.
Proof.
  destruct (serve j) as [|errno]; [left; reflexivity|right].
  destruct (Z.eq_dec errno 48) as [->|Hne];
    [left; reflexivity|right; exists errno; split; [reflexivity|exact Hne]].
Qed.

(** X12. Whatever the attempts meet, [main] never falls off the end of
    its loop: it ends serving or raising.  It tries to bind at most six
    times and sleeps once less than it tries, so at most five times; and
    it prints [READY] exactly when it ends serving. *)
Theorem main_tries_at_most_six_times (serve : nat -> bind_result) :
  let st := fst (main serve) in
  let tr := snd (main serve) in
  st <> FellThrough
  /\ 1 <= List.length (filter is_try tr) <= 6
  /\ List.length (filter is_sleep tr) + 1 = List.length (filter is_try tr)
  /\ (In PrintREADY tr <-> st = Serving).
Proof.
  intros st tr. subst st tr.
  assert (Hcase :
    exists k, 1 <= k <= 6
      /\ (forall j, 1 <= j < k -> serve j = OSError 48)
      /\ (serve k = Bound
          \/ exists errno, serve k = OSError errno
                           /\ (errno <> 48%Z \/ k = 6))).
  { destruct (attempt_cases serve 1) as [H1|[H1|[n [H1 Hn]]]];
      [exists 1; split; [lia|split; [intros; lia|left; exact H1]]
      | |exists 1; split; [lia|split; [intros; lia|right; exists n; auto]]].
    destruct (attempt_cases serve 2) as [H2|[H2|[n [H2 Hn]]]];
      [exists 2; split; [lia|split; [|left; exact H2]]
      | |exists 2; split; [lia|split; [|right; exists n; auto]]];
      try (intros j Hj; replace j with 1 by lia; assumption).
    destruct (attempt_cases serve 3) as [H3|[H3|[n [H3 Hn]]]];
      [exists 3; split; [lia|split; [|left; exact H3]]
      | |exists 3; split; [lia|split; [|right; exists n; auto]]];
      try (intros j Hj;
           assert (Hj' : j = 1 \/ j = 2) by lia;
           destruct Hj' as [->| ->]; assumption).
    destruct (attempt_cases serve 4) as [H4|[H4|[n [H4 Hn]]]];
      [exists 4; split; [lia|split; [|left; exact H4]]
      | |exists 4; split; [lia|split; [|right; exists n; auto]]];
      try (intros j Hj;
           assert (Hj' : j = 1 \/ j = 2 \/ j = 3) by lia;
           destruct Hj' as [->|[->| ->]]; assumption).
    destruct (attempt_cases serve 5) as [H5|[H5|[n [H5 Hn]]]];
      [exists 5; split; [lia|split; [|left; exact H5]]
      | |exists 5; split; [lia|split; [|right; exists n; auto]]];
      try (intros j Hj;
           assert (Hj' : j = 1 \/ j = 2 \/ j = 3 \/ j = 4) by lia;
           destruct Hj' as [->|[->|[->| ->]]]; assumption).
    exists 6. split; [lia|]. split.
    - intros j Hj.
      assert (Hj' : j = 1 \/ j = 2 \/ j = 3 \/ j = 4 \/ j = 5) by lia.
      destruct Hj' as [->|[->|[->|[->| ->]]]]; assumption.
    - destruct (serve 6) as [|n]; [left; reflexivity|].
      right. exists n. split; [reflexivity|right; reflexivity]. }
  destruct Hcase as [k [Hk [Hbusy [Hb|[n [He Hwhy]]]]]].
  - destruct (main_serves_after_busy_attempts serve k Hk Hbusy Hb)
      as [Hmain _].
    rewrite Hmain. cbn [fst snd].
    destruct k as [|[|[|[|[|[|[|k]]]]]]]; try lia;
      (split; [discriminate|]); (split; [cbn; lia|]);
      (split; [reflexivity|]);
      (split; [reflexivity|intros _; cbn; tauto]).
  - destruct (main_raises_unretried_error serve k n Hk Hbusy He Hwhy)
      as [Hmain _].
    rewrite Hmain. cbn [fst snd].
    destruct k as [|[|[|[|[|[|[|k]]]]]]]; try lia;
      (split; [discriminate|]); (split; [cbn; lia|]);
      (split; [reflexivity|]);
      (split; [|discriminate]);
      cbn; intros H; repeat (destruct H as [H|H]; [discriminate H|]);
      destruct H.
Qed.

End StartupFacts.

(** ** Runs of the added facts *)

(** [start] in the middle of a session (X2). *)
Lemma start_forgets_the_past_witness :
  loads_lite (type_message "start")
  = Loaded (JObject [("type", JString "start")])
  /\ dict_get "type" [("type", JString "start")] = Some (JString "start")
  /\ run_loop loads_lite scripted
       [start_msg; Binary (ramp_bytes 7 2)]
       (mkWorld (mkSession true (ramp 1 3)) [inl "hi"])
     = run_loop loads_lite scripted
         [start_msg; Binary (ramp_bytes 7 2)]
         (mkWorld (mkSession false []) [inl "hi"]).
Proof.
  assert (Hs : loads_lite (type_message "start")
               = Loaded (JObject [("type", JString "start")]))
    by (vm_compute; reflexivity).
  assert (Hd : dict_get "type" [("type", JString "start")]
               = Some (JString "start")) by reflexivity.
  split; [exact Hs|]. split; [exact Hd|].
  apply (start_forgets_the_past loads_lite scripted
           (type_message "start") [("type", JString "start")]
           [Binary (ramp_bytes 7 2)]
           (mkWorld (mkSession true (ramp 1 3)) [inl "hi"])
           (mkWorld (mkSession false []) [inl "hi"]) Hs Hd).
  reflexivity.
Defined.

(** [stop], two frames, and a [start] (X3). *)
Lemma stop_ends_the_session_witness :
  loads_lite (type_message "stop")
  = Loaded (JObject [("type", JString "stop")])
  /\ dict_get "type" [("type", JString "stop")] = Some (JString "stop")
  /\ run_loop loads_lite scripted
       (stop_msg :: map Binary [ramp_bytes 7 2; [x01]] ++ [start_msg])
       (mkWorld (mkSession true (ramp 1 3)) [inl "hi"])
     = run_loop loads_lite scripted
         [stop_msg; start_msg]
         (mkWorld (mkSession true (ramp 1 3)) [inl "hi"]).
Proof.
  assert (Hs : loads_lite (type_message "stop")
               = Loaded (JObject [("type", JString "stop")]))
    by (vm_compute; reflexivity).
  assert (Hd : dict_get "type" [("type", JString "stop")]
               = Some (JString "stop")) by reflexivity.
  split; [exact Hs|]. split; [exact Hd|].
  apply (stop_ends_the_session loads_lite scripted
           (type_message "stop") [("type", JString "stop")]
           [ramp_bytes 7 2; [x01]] [start_msg]
           (mkWorld (mkSession true (ramp 1 3)) [inl "hi"]) Hs Hd).
Defined.

(** The transcript of a chunk heard as ["hi"] (X9). *)
Lemma transcripts_are_nonempty_and_not_final_witness :
  In (transcript_frame "hi")
     (sent (snd (demo_handler [start_msg; Binary (ramp_bytes 1 3)]
                              [inl "hi"])))
  /\ is_frame "transcript" (transcript_frame "hi") = true
  /\ exists text d,
       transcript_frame "hi" = JObject d
       /\ dict_get "text" d = Some (JString text) /\ text <> EmptyString
       /\ dict_get "is_final" d = Some (JBool false).
Proof.
  assert (Hin : In (transcript_frame "hi")
                   (sent (snd (demo_handler
                                 [start_msg; Binary (ramp_bytes 1 3)]
                                 [inl "hi"]))))
    by (vm_compute; left; reflexivity).
  split; [exact Hin|]. split; [reflexivity|].
  apply (transcripts_are_nonempty_and_not_final loads_lite scripted
           [start_msg; Binary (ramp_bytes 1 3)] [inl "hi"]
           (transcript_frame "hi") Hin).
  reflexivity.
Defined.

(** The port is busy twice and free the third time (X10). *)
Lemma main_serves_after_busy_attempts_witness :
  1 <= 3 <= 6
  /\ Startup.main (fun j => if Nat.ltb j 3 then Startup.OSError 48
                            else Startup.Bound)
     = (Startup.Serving,
        Startup.PrintLoading
        :: flat_map Startup.busy_round (seq 1 (3 - 1))
           ++ [Startup.TryServe 3; Startup.PrintListening;
               Startup.PrintREADY]).
Proof.
  split; [lia|].
  apply (StartupFacts.main_serves_after_busy_attempts
           (fun j => if Nat.ltb j 3 then Startup.OSError 48
                     else Startup.Bound) 3).
  - lia.
  - intros j Hj. destruct (Nat.ltb_spec j 3) as [_|Hge]; [reflexivity|lia].
  - reflexivity.
Defined.

(** The port is busy on all six attempts (X11). *)
Lemma main_raises_unretried_error_witness :
  1 <= 6 <= 6
  /\ Startup.main (fun _ => Startup.OSError 48)
     = (Startup.Raised 48,
        Startup.PrintLoading
        :: flat_map Startup.busy_round (seq 1 (6 - 1))
           ++ [Startup.TryServe 6]).
Proof.
  split; [lia|].
  apply (StartupFacts.main_raises_unretried_error
           (fun _ => Startup.OSError 48) 6 48).
  - lia.
  - intros j Hj. reflexivity.
  - reflexivity.
  - right. reflexivity.
Defined.

(** ** The parent watchdog *)

Module WatchdogFacts.
Import Startup.



(** X14. Whatever the polls meet: the watchdog sends [SIGTERM] at most
    once, and exactly when it ends by returning; it sleeps once before
    every poll; and it is still watching after the polls given exactly
    when all of them found the parent alive. *)
Theorem watchdog_signals_at_most_once (polls : list probe) :
  let st := fst (_parent_watchdog polls) in
  let tr := snd (_parent_watchdog polls) in
  List.length (filter is_sigterm tr) <= 1
  /\ (In SendSIGTERM tr <-> st = Signalled)
  /\ List.length (filter is_wd_sleep tr) = List.length (filter is_probe tr)
  /\ (st = Watching <-> Forall (fun q => q = Alive) polls).
Proof.
  induction polls as [|p rest IH]; intros st tr; subst st tr.
  - cbn. split; [lia|]. split; [split; [intros []|discriminate]|].
    split; [reflexivity|]. split; [constructor|reflexivity].
  - cbn zeta in IH. destruct IH as [I1 [I2 [I3 I4]]].
    destruct p; cbn [_parent_watchdog].
    + destruct (_parent_watchdog rest) as [st tr]. cbn [fst snd] in *.
      cbn [app filter is_sigterm is_wd_sleep is_probe List.length].
      split; [exact I1|]. split.
      * rewrite <- I2. cbn [In]. split.
        -- intros [H|[H|H]]; [discriminate H|discriminate H|exact H].
        -- intros H. right. right. exact H.
      * split; [rewrite I3; reflexivity|]. rewrite I4. split.
        -- intros H. constructor; [reflexivity|exact H].
        -- intros H. inversion H. assumption.
    + cbn. split; [lia|]. split; [split; [reflexivity|tauto]|].
      split; [reflexivity|]. split; [discriminate|].
      intros H. inversion H. discriminate.
    + cbn. split; [lia|]. split; [split; [reflexivity|tauto]|].
      split; [reflexivity|]. split; [discriminate|].
      intros H. inversion H. discriminate.
    + cbn. split; [lia|]. split.
      * split; [|discriminate].
        intros [H|[H|[]]]; discriminate H.
      * split; [reflexivity|]. split; [discriminate|].
        intros H. inversion H. discriminate.
Qed.

End WatchdogFacts.


(** ** The backends of [transcriber.py] *)

Module BackendFacts.
Import Backend.

Lemma str_get_some (k v : string) (d : list (string * string)) :
  str_get k d = Some v -> In (k, v) d.
Proof.
  induction d as [|[k' v'] d IH]; [discriminate|].
  cbn [str_get]. destruct (String.eqb_spec k k') as [->|Hne].
  - intros H. injection H as ->. left. reflexivity.
  - intros H. right. apply IH, H.
Qed.

Lemma str_get_none (k : string) (d : list (string * string)) :
  str_get k d = None <-> ~ In k (map fst d).
Proof.
  induction d as [|[k' v'] d IH]; [cbn; tauto|].
  cbn [str_get map fst In]. destruct (String.eqb_spec k k') as [->|Hne].
  - split; [discriminate|]. intros H. exfalso. apply H. left. reflexivity.
  - rewrite IH. split.
    + intros H [Heq|Hin]; [apply Hne; symmetry; exact Heq|apply H, Hin].
    + intros H Hin. apply H. right. exact Hin.
Qed.

Lemma string_length_append (a b : string) :
  String.length (a ++ b) = String.length a + String.length b.
Proof.
  induction a as [|c a IH]; [reflexivity|]. cbn. rewrite IH. reflexivity.
Qed.

(** X15. The MLX backend always gets a model path from the table,
    whatever model size is configured: the path listed for a size that is
    in the table, and the path of the small model for every other
    string. *)
Theorem mlx_model_path_falls_back_to_small (model_size : string) :
  exists path,
    mlx_model_path model_size = Some path
    /\ In path (map snd _MLX_MODEL_MAP)
    /\ (In model_size (map fst _MLX_MODEL_MAP) ->
        In (model_size, path) _MLX_MODEL_MAP)
    /\ (~ In model_size (map fst _MLX_MODEL_MAP) ->
        path = "mlx-community/whisper-small-mlx").
Proof.
  unfold mlx_model_path.
  change (str_get "small" _MLX_MODEL_MAP)
    with (Some "mlx-community/whisper-small-mlx").
  destruct (str_get model_size _MLX_MODEL_MAP) as [path|] eqn:Hget.
  - exists path. pose proof (str_get_some _ _ _ Hget) as Hin.
    split; [reflexivity|]. split; [|split].
    + apply (in_map snd) in Hin. exact Hin.
    + intros _. exact Hin.
    + intros Hno. exfalso. apply Hno.
      apply (in_map fst) in Hin. exact Hin.
  - exists "mlx-community/whisper-small-mlx".
    split; [reflexivity|]. split; [|split].
    + cbn. tauto.
    + intros Hin. apply str_get_none in Hget. contradiction.
    + intros _. reflexivity.
Qed.

(** X16. The text of the faster-whisper backend has the characters of
    the stripped segment texts and one space between neighbours.  So it
    is empty for no segments, the stripped text for one, and never empty
    for two or more, even when every segment is blank. *)
Theorem faster_whisper_text_length
        (strip : string -> string) (texts : list string) :
  String.length (faster_whisper_text strip texts)
  = total_length strip texts + (List.length texts - 1)
  /\ (texts = [] -> faster_whisper_text strip texts = EmptyString)
  /\ (forall t, texts = [t] -> faster_whisper_text strip texts = strip t)
  /\ (2 <= List.length texts ->
      truthy (faster_whisper_text strip texts) = true).
Proof.
  assert (Hlen : String.length (faster_whisper_text strip texts)
                 = total_length strip texts + (List.length texts - 1)).
  { unfold faster_whisper_text.
    induction texts as [|t rest IH]; [reflexivity|].
    destruct rest as [|t' rest].
    - cbn. lia.
    - change (map strip (t :: t' :: rest))
        with (strip t :: map strip (t' :: rest)).
      change (String.concat " " (strip t :: map strip (t' :: rest)))
        with (strip t ++ " "
              ++ String.concat " " (map strip (t' :: rest)))%string.
      rewrite !string_length_append, IH. cbn. lia. }
  split; [exact Hlen|]. split; [intros ->; reflexivity|].
  split; [intros t ->; reflexivity|].
  intros Hn. destruct (faster_whisper_text strip texts) eqn:E;
    [|reflexivity].
  cbn in Hlen. lia.
Qed.

End BackendFacts.

(** ** [format_time] and [set_hf_token] *)

Module ReelFacts.
Import Reel ReelCheck.

(** Below 100, [{z:02d}] is two digits that read as [z]. *)
Lemma fmt_02d_two_digits (z : Z) :
  (0 <= z < 100)%Z -> two_digits_of z (fmt_02d z) = true.
Proof.
  intros Hz.
  assert (Hall : forallb (fun k => two_digits_of (Z.of_nat k)
                                     (fmt_02d (Z.of_nat k)))
                         (seq 0 100) = true)
    by (vm_compute; reflexivity).
  rewrite forallb_forall in Hall.
  specialize (Hall (Z.to_nat z)).
  rewrite Z2Nat.id in Hall by lia. apply Hall.
  apply in_seq. lia.
Qed.

Lemma two_digits_of_spec (z : Z) (s : string) :
  two_digits_of z s = true ->
  exists d1 d2 a b,
    s = String d1 (String d2 EmptyString)
    /\ digit_val d1 = Some a /\ digit_val d2 = Some b
    /\ (10 * a + b = z)%Z.
Proof.
  unfold two_digits_of.
  destruct s as [|d1 [|d2 [|c s]]]; try discriminate.
  destruct (digit_val d1) as [a|] eqn:Ha; [|discriminate].
  destruct (digit_val d2) as [b|] eqn:Hb; [|discriminate].
  intros H. apply Z.eqb_eq in H. exists d1, d2, a, b.
  split; [reflexivity|]. split; [exact Ha|]. split; [exact Hb|exact H].
Qed.

(** X17. Whatever the time, negative or hours long, the seconds field of
    a stamp is two digits that read as a number from 0 to 59, the
    remainder of the whole seconds by 60; the stamp is the minutes field
    and this field between brackets, with a colon between them. *)
Theorem format_time_seconds_field (seconds : QArith_base.Q) :
  exists d1 d2 a b,
    format_time seconds
    = ("[" ++ fmt_02d (Z.div (py_int seconds) 60) ++ ":"
       ++ String d1 (String d2 EmptyString) ++ "]")%string
    /\ digit_val d1 = Some a /\ digit_val d2 = Some b
    /\ (10 * a + b = Z.modulo (py_int seconds) 60)%Z
    /\ (0 <= 10 * a + b < 60)%Z.
Proof.
  pose proof (Z.mod_pos_bound (py_int seconds) 60 eq_refl) as Hs.
  destruct (two_digits_of_spec _ _
              (fmt_02d_two_digits (Z.modulo (py_int seconds) 60)
                 ltac:(lia)))
    as [d1 [d2 [a [b [Hf [Ha [Hb Hv]]]]]]].
  exists d1, d2, a, b. unfold format_time. cbn zeta. rewrite Hf.
  repeat split; try assumption; lia.
Qed.

(** X18. For a time from 0 up to, not including, 100 minutes the stamp
    is exactly seven characters, [[MM:SS]], whose digits read back as the
    whole seconds: 60 times the minutes plus the seconds, the seconds
    below 60. *)
Theorem format_time_mm_ss (seconds : QArith_base.Q) :
  (0 <= py_int seconds < 6000)%Z ->
  exists m1 m2 s1 s2 a b c d,
    format_time seconds
    = String "[" (String m1 (String m2 (String ":"
        (String s1 (String s2 (String "]" EmptyString))))))
    /\ digit_val m1 = Some a /\ digit_val m2 = Some b
    /\ digit_val s1 = Some c /\ digit_val s2 = Some d
    /\ (60 * (10 * a + b) + (10 * c + d) = py_int seconds)%Z
    /\ (10 * c + d < 60)%Z.
Proof.
  intros Hn.
  pose proof (Z.mod_pos_bound (py_int seconds) 60 eq_refl) as Hs.
  assert (Hm : (0 <= Z.div (py_int seconds) 60 < 100)%Z).
  { split; [apply Z.div_pos; lia|].
    apply Z.div_lt_upper_bound; lia. }
  destruct (two_digits_of_spec _ _ (fmt_02d_two_digits _ Hm))
    as [m1 [m2 [a [b [Hfm [Ha [Hb Hmv]]]]]]].
  assert (Hs' : (0 <= Z.modulo (py_int seconds) 60 < 100)%Z) by lia.
  destruct (two_digits_of_spec _ _ (fmt_02d_two_digits _ Hs'))
    as [s1 [s2 [c [d [Hfs [Hc [Hd Hsv]]]]]]].
  exists m1, m2, s1, s2, a, b, c, d.
  unfold format_time. cbn zeta. rewrite Hfm, Hfs.
  split; [reflexivity|]. repeat split; try assumption.
  - rewrite Hmv, Hsv. symmetry. apply Z.div_mod. lia.
  - lia.
Qed.

Lemma read_digits_digits (n : N) : read_digits (digits n) = Some n.
Proof.
  unfold read_digits, digits.
  pose proof (DecimalN.Unsigned.of_to n) as Hn.
  destruct (N.to_uint n) as [|u|u|u|u|u|u|u|u|u|u] eqn:Hu;
    cbn [DecimalString.NilZero.string_of_uint];
    try (rewrite DecimalString.NilEmpty.usu; cbn [option_map];
         rewrite Hn; reflexivity).
  cbn. cbn in Hn. rewrite <- Hn. reflexivity.
Qed.

Lemma read_digits_zero_first (s : string) :
  read_digits (String "0" s) = read_digits s.
Proof.
  unfold read_digits. cbn [DecimalString.NilEmpty.uint_of_string].
  destruct (DecimalString.NilEmpty.uint_of_string s) as [u|]; reflexivity.
Qed.

(** A field that is not negative reads back as its number. *)
Lemma read_fmt_02d (z : Z) :
  (0 <= z)%Z -> read_digits (fmt_02d z) = Some (Z.to_N z).
Proof.
  intros Hz. unfold fmt_02d.
  destruct (Z.ltb_spec z 0) as [Hneg|_]; [lia|].
  cbn zeta. destruct (Nat.ltb (String.length (digits (Z.to_N z))) 2).
  - change ("0" ++ digits (Z.to_N z))%string
      with (String "0" (digits (Z.to_N z))).
    rewrite read_digits_zero_first. apply read_digits_digits.
  - apply read_digits_digits.
Qed.

Lemma append_inj_by_length (a a' b b' : string) :
  String.length b = String.length b' ->
  (a ++ b)%string = (a' ++ b')%string -> a = a' /\ b = b'.
Proof.
  revert a'. induction a as [|c a IH]; intros [|c' a'] Hl H; cbn in H.
  - split; [reflexivity|exact H].
  - exfalso. apply (f_equal String.length) in H.
    cbn in H. rewrite BackendFacts.string_length_append in H. lia.
  - exfalso. apply (f_equal String.length) in H.
    cbn in H. rewrite BackendFacts.string_length_append in H. lia.
  - injection H as Hc H. destruct (IH a' Hl H) as [-> ->].
    subst c'. split; reflexivity.
Qed.

(** X19. Stamps tell whole seconds apart: two times that are not
    negative get the same stamp only if they have the same whole
    seconds. *)
Theorem format_time_injective (t1 t2 : QArith_base.Q) :
  (0 <= py_int t1)%Z -> (0 <= py_int t2)%Z ->
  format_time t1 = format_time t2 ->
  py_int t1 = py_int t2.
Proof.
  intros H1 H2 Heq.
  destruct (format_time_seconds_field t1)
    as [p1 [p2 [a [b [E1 [Ha [Hb [Hv _]]]]]]]].
  destruct (format_time_seconds_field t2)
    as [q1 [q2 [c [d [E2 [Hc [Hd [Hw _]]]]]]]].
  rewrite E1, E2 in Heq. cbn [append] in Heq. injection Heq as Heq.
  apply append_inj_by_length in Heq; [|reflexivity].
  destruct Heq as [Hm Hs].
  injection Hs as -> ->.
  assert (Hsec : Z.modulo (py_int t1) 60 = Z.modulo (py_int t2) 60)
    by congruence.
  assert (Hmin : Z.div (py_int t1) 60 = Z.div (py_int t2) 60).
  { apply (f_equal read_digits) in Hm.
    rewrite !read_fmt_02d in Hm by (apply Z.div_pos; lia).
    injection Hm as Hm. apply Z2N.inj in Hm;
      [exact Hm|apply Z.div_pos; lia|apply Z.div_pos; lia]. }
  rewrite (Z.div_mod (py_int t1) 60), (Z.div_mod (py_int t2) 60) by lia.
  rewrite Hsec, Hmin. reflexivity.
Qed.

Lemma env_get_set_same (k v : string) (env : environ) :
  env_get k (env_set k v env) = Some v.
Proof.
  induction env as [|[k' v'] env IH]; cbn [env_set env_get].
  - rewrite String.eqb_refl. reflexivity.
  - destruct (String.eqb k k') eqn:E; cbn [env_get]; rewrite E;
      [reflexivity|exact IH].
Qed.

Lemma env_get_set_other (k k0 v : string) (env : environ) :
  k0 <> k -> env_get k0 (env_set k v env) = env_get k0 env.
Proof.
  intros Hne. induction env as [|[k' v'] env IH]; cbn [env_set env_get].
  - apply String.eqb_neq in Hne. rewrite Hne. reflexivity.
  - destruct (String.eqb_spec k k') as [->|Hk]; cbn [env_get].
    + apply String.eqb_neq in Hne. rewrite Hne. reflexivity.
    + destruct (String.eqb k0 k'); [reflexivity|exact IH].
Qed.

Lemma env_set_known (k v : string) (env : environ) :
  env_get k env = Some v -> env_set k v env = env.
Proof.
  induction env as [|[k' v'] env IH]; cbn [env_set env_get];
    [discriminate|].
  destruct (String.eqb k k').
  - intros H. injection H as ->. reflexivity.
  - intros H. rewrite (IH H). reflexivity.
Qed.

Lemma env_get_setdefault (k k0 v : string) (env : environ) :
  env_get k0 (env_setdefault k v env)
  = if String.eqb k0 k
    then Some (match env_get k env with Some old => old | None => v end)
    else env_get k0 env.
Proof.
  unfold env_setdefault. destruct (String.eqb_spec k0 k) as [->|Hne].
  - destruct (env_get k env) as [old|] eqn:E;
      [exact E|apply env_get_set_same].
  - destruct (env_get k env); [reflexivity|].
    apply env_get_set_other, Hne.
Qed.

(** X20. What [set_hf_token] leaves in the environment, variable by
    variable: [HF_HUB_DISABLE_IMPLICIT_TOKEN] keeps its value if it had
    one and is ["1"] otherwise; [HF_TOKEN] is the token given if that is
    a non-empty string, and is as before (set or not) for no token and
    for the empty one; every other variable is as before. *)
Theorem set_hf_token_lookup
        (token : option string) (env : environ) (k : string) :
  env_get k (set_hf_token token env)
  = if String.eqb k "HF_HUB_DISABLE_IMPLICIT_TOKEN" then
      Some (match env_get k env with Some old => old | None => "1" end)
    else if String.eqb k "HF_TOKEN" then
      match token with
      | Some t => if truthy t then Some t else env_get k env
      | None => env_get k env
      end
    else env_get k env.
Proof.
  unfold set_hf_token. rewrite env_get_setdefault.
  destruct (String.eqb_spec k "HF_HUB_DISABLE_IMPLICIT_TOKEN") as [->|Hd].
  - destruct token as [t|]; [|reflexivity].
    destruct (truthy t); [|reflexivity].
    rewrite env_get_set_other by discriminate. reflexivity.
  - destruct token as [t|];
      [|destruct (String.eqb k "HF_TOKEN"); reflexivity].
    destruct (truthy t);
      [|destruct (String.eqb k "HF_TOKEN"); reflexivity].
    destruct (String.eqb_spec k "HF_TOKEN") as [->|Ht].
    + apply env_get_set_same.
    + apply env_get_set_other, Ht.
Qed.

(** X21. Setting the token twice is setting it once, and a later call
    without a token, or with the empty one, undoes nothing: the
    environment is the same list of variables. *)
Theorem set_hf_token_idempotent (token : option string) (env : environ) :
  set_hf_token token (set_hf_token token env) = set_hf_token token env
  /\ set_hf_token None (set_hf_token token env) = set_hf_token token env
  /\ set_hf_token (Some EmptyString) (set_hf_token token env)
     = set_hf_token token env.
Proof.
  assert (Hd : forall e,
             env_setdefault "HF_HUB_DISABLE_IMPLICIT_TOKEN" "1"
               (set_hf_token token e)
             = set_hf_token token e).
  { intros e. unfold env_setdefault at 1.
    rewrite set_hf_token_lookup. reflexivity. }
  assert (Hnone : set_hf_token None (set_hf_token token env)
                  = set_hf_token token env) by apply Hd.
  split; [|split; [exact Hnone|apply Hd]].
  destruct token as [t|]; [|exact Hnone].
  destruct (truthy t) eqn:Ht.
  - unfold set_hf_token at 1. rewrite Ht.
    rewrite env_set_known.
    + apply Hd.
    + rewrite set_hf_token_lookup. cbn. rewrite Ht. reflexivity.
  - unfold set_hf_token at 1. rewrite Ht. apply Hd.
Qed.

(** X22. For every model the command line accepts, the MLX model is the
    table's own entry for it, [mlx-community/whisper-<model>-mlx], so the
    fallback is never used from the command line; any string outside the
    table gets the large-v3 model. *)
Theorem mlx_model_of_every_choice :
  Forall (fun m => mlx_model m
                   = Some ("mlx-community/whisper-" ++ m ++ "-mlx")%string)
         model_choices
  /\ map fst _MLX_MODEL_MAP = model_choices
  /\ forall m, ~ In m model_choices ->
               mlx_model m = Some "mlx-community/whisper-large-v3-mlx".
Proof.
  split; [repeat constructor|]. split; [reflexivity|].
  intros m Hno. unfold mlx_model.
  change (Backend.str_get "large-v3" _MLX_MODEL_MAP)
    with (Some "mlx-community/whisper-large-v3-mlx").
  assert (Hnone : Backend.str_get m _MLX_MODEL_MAP = None)
    by (apply BackendFacts.str_get_none; exact Hno).
  rewrite Hnone. reflexivity.
Qed.

End ReelFacts.

(** A segment that starts at 599.9 s (X18). *)
Lemma format_time_mm_ss_witness :
  (0 <= Reel.py_int (QArith_base.Qmake 5999 10) < 6000)%Z
  /\ exists m1 m2 s1 s2 a b c d,
       Reel.format_time (QArith_base.Qmake 5999 10)
       = String "[" (String m1 (String m2 (String ":"
           (String s1 (String s2 (String "]" EmptyString))))))
       /\ digit_val m1 = Some a /\ digit_val m2 = Some b
       /\ digit_val s1 = Some c /\ digit_val s2 = Some d
       /\ (60 * (10 * a + b) + (10 * c + d)
           = Reel.py_int (QArith_base.Qmake 5999 10))%Z
       /\ (10 * c + d < 60)%Z.
Proof.
  assert (H : (0 <= Reel.py_int (QArith_base.Qmake 5999 10) < 6000)%Z)
    by (vm_compute; split; [discriminate|reflexivity]).
  split; [exact H|].
  apply (ReelFacts.format_time_mm_ss (QArith_base.Qmake 5999 10) H).
Defined.

(** 75 s and 75.5 s have the same stamp (X19). *)
Lemma format_time_injective_witness :
  (0 <= Reel.py_int (QArith_base.Qmake 75 1))%Z
  /\ (0 <= Reel.py_int (QArith_base.Qmake 151 2))%Z
  /\ Reel.format_time (QArith_base.Qmake 75 1)
     = Reel.format_time (QArith_base.Qmake 151 2)
  /\ Reel.py_int (QArith_base.Qmake 75 1)
     = Reel.py_int (QArith_base.Qmake 151 2).
Proof.
  assert (H1 : (0 <= Reel.py_int (QArith_base.Qmake 75 1))%Z)
    by (vm_compute; discriminate).
  assert (H2 : (0 <= Reel.py_int (QArith_base.Qmake 151 2))%Z)
    by (vm_compute; discriminate).
  assert (H3 : Reel.format_time (QArith_base.Qmake 75 1)
               = Reel.format_time (QArith_base.Qmake 151 2))
    by (vm_compute; reflexivity).
  split; [exact H1|]. split; [exact H2|]. split; [exact H3|].
  apply (ReelFacts.format_time_injective _ _ H1 H2 H3).
Defined.
